(** * verify_scholar_papers: a shallow embedding and its properties

    The development follows [Googlescholar/verify_scholar_papers.py]:
    the text utilities ([normalize], [last_name], [author_name_score],
    [title_score], [cap_score]), the two metadata adapters
    ([crossref_lookup], [semantic_lookup]), the identity bonus, the
    verification logic ([verify_publication], [build_result]) and the
    reporting tail of [main].

    Modelling conventions.
    - A Python [str] is a [string]; its characters are the code points
      U+0000 to U+00FF, classified as Python classifies them
      ([str.isspace], the [\w] and [\s] classes of [re], [str.lower]).
    - A value that may be [None] is an [option]; Python truthiness of
      such a value is [truthy].
    - A Python [float] is the rational number it denotes ([Q]), and each
      floating-point operation is the exact operation followed by
      rounding to the nearest binary64 number, ties to even
      ([binary64]); comparisons are exact. Infinities, NaN and the sign
      of zero are left out: the numbers of the program stay below 2^10.
    - A Python exception is a [Raise] in the [result] monad.
    - The similarity functions of [rapidfuzz] and the two web services
      are outside the repository; they are variables of the sections
      that use them. *)

From Stdlib Require Import Bool List Ascii String NArith ZArith.
From Stdlib Require Import QArith Qround Qpower Qreduction Lia Lqa.
Import ListNotations.

Local Open Scope string_scope.

(** ** Python builtins on characters and strings *)

Module Py.

Definition code (c : ascii) : N := N_of_ascii c.

Definition between (lo hi : N) (c : ascii) : bool :=
  ((lo <=? code c) && (code c <=? hi))%N.

Definition is_code (n : N) (c : ascii) : bool := (code c =? n)%N.

(** [str.isspace], which is also the class [\s] and the separator set of
    [str.split()] and [str.strip()]. *)
Definition isspace (c : ascii) : bool :=
  between 9 13 c || between 28 32 c || is_code 133 c || is_code 160 c.

(** [str.isalnum] on U+0000..U+00FF. *)
Definition isalnum (c : ascii) : bool :=
  between 48 57 c || between 65 90 c || between 97 122 c
  || is_code 170 c || is_code 178 c || is_code 179 c || is_code 181 c || is_code 185 c || is_code 186 c
  || between 188 190 c || between 192 214 c || between 216 246 c
  || between 248 255 c.

(** The class [\w] of [re]: alphanumeric or underscore. *)
Definition isword (c : ascii) : bool := isalnum c || is_code 95 c.

(** [str.lower] on one character. *)
Definition lower_char (c : ascii) : ascii :=
  if between 65 90 c || between 192 214 c || between 216 222 c
  then ascii_of_N (code c + 32)
  else c.

Fixpoint map (f : ascii -> ascii) (s : string) : string :=
  match s with
  | EmptyString => EmptyString
  | String c s' => String (f c) (map f s')
  end.

Fixpoint all (p : ascii -> bool) (s : string) : bool :=
  match s with
  | EmptyString => true
  | String c s' => p c && all p s'
  end.

Definition lower (s : string) : string := map lower_char s.

(** [s' == "" or s'[0].isspace()]: a word ends before [s']. *)
Definition at_boundary (s : string) : bool :=
  match s with
  | EmptyString => true
  | String c _ => isspace c
  end.

(** [str.split()] without arguments: the maximal runs of non-whitespace
    characters, in order. *)
Fixpoint split (s : string) : list string :=
  match s with
  | EmptyString => []
  | String c s' =>
      if isspace c then split s'
      else if at_boundary s' then String c EmptyString :: split s'
      else match split s' with
           | w :: ws => String c w :: ws
           | [] => [String c EmptyString]
           end
  end.

(** [sep.join(ls)]. *)
Definition join (sep : string) (ls : list string) : string :=
  String.concat sep ls.

Fixpoint lstrip (s : string) : string :=
  match s with
  | EmptyString => EmptyString
  | String c s' => if isspace c then lstrip s' else s
  end.

Fixpoint rstrip (s : string) : string :=
  match s with
  | EmptyString => EmptyString
  | String c s' =>
      match rstrip s' with
      | EmptyString => if isspace c then EmptyString else String c EmptyString
      | r => String c r
      end
  end.

(** [str.strip()]. *)
Definition strip (s : string) : string := rstrip (lstrip s).

(** Truthiness of an optional string: [None] and [""] are false. *)
Definition truthy (o : option string) : bool :=
  match o with
  | None => false
  | Some EmptyString => false
  | Some _ => true
  end.

(** Replace every maximal run of characters satisfying [p] by one space;
    [in_run] tells that the previous character belonged to such a run. *)
Fixpoint squeeze (p : ascii -> bool) (in_run : bool) (s : string) : string :=
  match s with
  | EmptyString => EmptyString
  | String c s' =>
      if p c
      then if in_run then squeeze p true s'
           else String " " (squeeze p true s')
      else String c (squeeze p false s')
  end.

End Py.

(** ** Utilities *)

(** [re.sub(r"[^\w\s]", " ", text)]: every character that is neither a
    word character nor whitespace becomes a space. *)
Definition is_punct (c : ascii) : bool :=
  negb (Py.isword c) && negb (Py.isspace c).

Definition sub_punct (text : string) : string :=
  Py.map (fun c => if is_punct c then " "%char else c) text.

Definition normalize (text : option string) : string :=
  match text with
  | None => ""
  | Some EmptyString => ""
  | Some t => Py.join " " (Py.split (sub_punct (Py.lower t)))
  end.

(** The normalizer as the specification words it, over a class [keep] of
    characters that are left in place: lower-case, replace every run of
    characters that are neither kept nor whitespace by a single space,
    collapse repeated whitespace to single spaces, trim. *)
Definition normalize_spec (keep : ascii -> bool) (text : option string) : string :=
  match text with
  | None => ""
  | Some t =>
      Py.strip
        (Py.squeeze Py.isspace false
           (Py.squeeze (fun c => negb (keep c) && negb (Py.isspace c)) false
              (Py.lower t)))
  end.

(** ** Exceptions *)

Inductive exn : Type :=
| IndexError
| KeyError
| ZeroDivisionError
| RequestException
| JSONDecodeError.

Inductive result (A : Type) : Type :=
| Ok (a : A)
| Raise (e : exn).

Arguments Ok {A} a.
Arguments Raise {A} e.

Definition bind {A B : Type} (m : result A) (k : A -> result B) : result B :=
  match m with
  | Ok a => k a
  | Raise e => Raise e
  end.

Notation "x <- m ;; k" := (bind m (fun x => k))
  (at level 61, m at next level, right associativity).

(** A loop body run over a list, stopping at the first exception. *)
Fixpoint for_each {A B : Type} (f : A -> result B) (l : list A) : result (list B) :=
  match l with
  | [] => Ok []
  | a :: l' => b <- f a ;; bs <- for_each f l' ;; Ok (b :: bs)
  end.

(** [try: ... except Exception: return []]. *)
Definition except_empty {A : Type} (m : result (list A)) : list A :=
  match m with
  | Ok l => l
  | Raise _ => []
  end.

(** [l[0]] and [l[-1]] on a list, [s[0]] on a string. *)
Definition first_item {A : Type} (l : list A) : result A :=
  match l with
  | [] => Raise IndexError
  | a :: _ => Ok a
  end.

Definition last_item {A : Type} (l : list A) : result A :=
  first_item (rev l).

Definition first_char (s : string) : result ascii :=
  match s with
  | EmptyString => Raise IndexError
  | String c _ => Ok c
  end.

(** [d.get(key, default)] on a field that may be missing. *)
Definition get {A : Type} (field : option A) (default : A) : A :=
  match field with
  | Some a => a
  | None => default
  end.

(** [d[key]] on a field that may be missing. *)
Definition getitem {A : Type} (field : option A) : result A :=
  match field with
  | Some a => Ok a
  | None => Raise KeyError
  end.

(** ** Numbers *)

Local Open Scope Q_scope.

Definition Qltb (x y : Q) : bool := negb (Qle_bool y x).

(** [min(a, b)]: [b] when [b < a], otherwise [a]. *)
Definition py_min (a b : Q) : Q := if Qltb b a then b else a.

(** [max(x :: xs)]: the first greatest element. *)
Definition py_max (x : Q) (xs : list Q) : Q :=
  fold_left (fun m y => if Qltb m y then y else m) xs x.

(** Round to the nearest integer, ties to the even one. *)
Definition round_half_even (q : Q) : Z :=
  let n := Qfloor q in
  match Qcompare (q - inject_Z n) (1 # 2) with
  | Lt => n
  | Gt => (n + 1)%Z
  | Eq => if Z.even n then n else (n + 1)%Z
  end.

(** *** Binary64 arithmetic *)

(** The exponent of the power of two at or next below a positive [x]. *)
Definition floor_log2 (x : Q) : Z :=
  let l := (Z.log2 (Qnum x) - Z.log2 (Zpos (Qden x)))%Z in
  if Qle_bool (2 ^ l) x then l else (l - 1)%Z.

(** A positive number rounded to 53 significant bits (fewer below
    2^-1022, where the exponent stops at -1074), ties to even. *)
Definition round_pos (x : Q) : Q :=
  let e := Z.max (floor_log2 x - 52) (-1074) in
  inject_Z (round_half_even (x / 2 ^ e)) * 2 ^ e.

(** The binary64 number nearest to [x], ties to even. *)
Definition binary64 (x : Q) : Q :=
  match Qcompare x 0 with
  | Eq => 0
  | Gt => Qred (round_pos x)
  | Lt => Qred (- round_pos (- x))
  end.

(** [x + y], [x * y] and [x / y] on floats. *)
Definition fadd (x y : Q) : Q := binary64 (x + y).
Definition fmul (x y : Q) : Q := binary64 (x * y).
Definition fdiv (x y : Q) : Q := binary64 (x / y).

(** [round(q, ndigits)] on a float: the decimal with [ndigits] places
    nearest to [q], ties to even, then the float nearest to it. *)
Definition py_round (q : Q) (ndigits : nat) : Q :=
  let scale := Z.to_pos (10 ^ Z.of_nat ndigits) in
  binary64 (Qmake (round_half_even (q * inject_Z (Zpos scale))) scale).

(** [a / b]. *)
Definition py_div (a b : Q) : result Q :=
  if Qeq_bool b 0 then Raise ZeroDivisionError else Ok (fdiv a b).

(** ** Data model *)

(** A claimed publication: [{"title": ...}]. *)
Module Pub.
Record t : Type := make { title : string }.
End Pub.

(** A candidate record as the adapters build it. The key ["orcid"] is
    set by the Crossref adapter only. *)
Module Candidate.
Record t : Type := make {
  title : string;
  authors : list string;
  doi : option string;
  orcid : option (list string);
  source : string
}.
End Candidate.

(** The dictionary returned by [build_result], keys in insertion order. *)
Module Verification.
Record t : Type := make {
  claimed_title : string;
  matched_title : string;
  matched_source : string;
  doi : option string;
  confidence_score : Q;
  classification : string;
  verification_strength : string;
  reason : string
}.

Definition keys (_ : t) : list string :=
  ["claimed_title"; "matched_title"; "matched_source"; "doi";
   "confidence_score"; "classification"; "verification_strength"; "reason"]%string.
End Verification.

(** *** The web services

    A request is what [requests.get] is given. A response carries the
    [ok] flag and the outcome of [r.json()]. The decoded document is
    restricted to the fields the adapters read; a field is either
    missing ([None]) or has the type the service documents. *)

Inductive param : Type :=
| PStr (s : string)
| PInt (n : Z).

Record request : Type := {
  url : string;
  params : list (string * param);
  timeout : Z
}.

Module Crossref.
Record author : Type := { given : option string; family : option string; ORCID : option string }.
Record item : Type := { title : option (list string); author_ : option (list author); DOI : option string }.
Record message : Type := { items : option (list item) }.
Record body : Type := { message_ : option message }.
End Crossref.

Module Semantic.
Record author : Type := { name : option string }.
Record external_ids : Type := { DOI : option string }.
Record paper : Type := {
  title : option string;
  authors : option (list author);
  externalIds : option external_ids
}.
Record body : Type := { data : option (list paper) }.
End Semantic.

Inductive document : Type :=
| CrossrefDoc (b : Crossref.body)
| SemanticDoc (b : Semantic.body).

Record response : Type := {
  ok : bool;
  json : result document
}.

(** ** The program *)

Section Program.

(** [rapidfuzz.fuzz]. *)
Variable partial_ratio : string -> string -> Q.
Variable token_set_ratio : string -> string -> Q.

(** [requests.get]. *)
Variable requests_get : request -> result response.

Definition last_name (full_name : option string) : result string :=
  last_item (Py.split (normalize full_name)).

Definition author_name_score (full_name : option string) (authors : list string) : result Q :=
  let full := normalize full_name in
  last <- last_name full_name ;;
  initial <- first_char full ;;
  let scores :=
    flat_map
      (fun a =>
         let a := normalize (Some a) in
         [ partial_ratio full a;
           partial_ratio last a;
           partial_ratio (String initial (" " ++ last)) a ])
      authors in
  Ok (match scores with
      | [] => 0
      | s :: ss => py_max s ss
      end).

Definition title_score (a b : option string) : Q :=
  token_set_ratio (normalize a) (normalize b).

Definition cap_score (score : Q) : Q :=
  py_min (py_round score 2) 100.

(** *** External metadata APIs *)

Definition crossref_candidate (i : Crossref.item) : result Candidate.t :=
  title <- first_item (get (Crossref.title i) [""%string]) ;;
  Ok (Candidate.make
        title
        (map (fun a =>
                Py.strip (get (Crossref.given a) "" ++ " " ++ get (Crossref.family a) ""))
             (get (Crossref.author_ i) []))
        (Crossref.DOI i)
        (Some (flat_map
                 (fun a =>
                    if Py.truthy (Crossref.ORCID a)
                    then [get (Crossref.ORCID a) ""]
                    else [])
                 (get (Crossref.author_ i) [])))
        "Crossref").

Definition crossref_request (title : string) : request :=
  {| url := "https://api.crossref.org/works";
     params := [("query.title"%string, PStr title); ("rows"%string, PInt 3)];
     timeout := 30 |}.

Definition crossref_lookup (title : string) : list Candidate.t :=
  except_empty
    (r <- requests_get (crossref_request title) ;;
     if negb (ok r) then Ok []
     else
       doc <- json r ;;
       message <- getitem (match doc with
                           | CrossrefDoc b => Crossref.message_ b
                           | SemanticDoc _ => None
                           end) ;;
       items <- getitem (Crossref.items message) ;;
       for_each crossref_candidate items).

Definition semantic_candidate (d : Semantic.paper) : result Candidate.t :=
  authors <- for_each (fun a => getitem (Semantic.name a)) (get (Semantic.authors d) []) ;;
  Ok (Candidate.make
        (get (Semantic.title d) "")
        authors
        (match Semantic.externalIds d with
         | Some ids => Semantic.DOI ids
         | None => None
         end)
        None
        "SemanticScholar").

Definition semantic_request (title : string) : request :=
  {| url := "https://api.semanticscholar.org/graph/v1/paper/search";
     params := [("query"%string, PStr title); ("limit"%string, PInt 3);
                ("fields"%string, PStr "title,authors,externalIds")];
     timeout := 30 |}.

Definition semantic_lookup (title : string) : list Candidate.t :=
  except_empty
    (r <- requests_get (semantic_request title) ;;
     if negb (ok r) then Ok []
     else
       doc <- json r ;;
       for_each semantic_candidate
         (match doc with
          | SemanticDoc b => get (Semantic.data b) []
          | CrossrefDoc _ => []
          end)).

(** *** Identity bonus (bounded) *)

Definition id_bonus (orcid scopus_id researcher_id : option string)
    (hit : option Candidate.t) : Z :=
  let bonus := 0%Z in
  let bonus :=
    match orcid, hit with
    | Some o, Some h =>
        if Py.truthy orcid && existsb (String.eqb o) (get (Candidate.orcid h) [])
        then (bonus + 15)%Z else bonus
    | _, _ => bonus
    end in
  let bonus := if Py.truthy scopus_id then (bonus + 5)%Z else bonus in
  let bonus := if Py.truthy researcher_id then (bonus + 5)%Z else bonus in
  Z.min bonus 25.

(** *** Verification strength *)

Definition verification_strength (orcid : option string) (doi_present : bool) : string :=
  if Py.truthy orcid && doi_present then "Strong (ORCID + DOI)"
  else if doi_present then "Moderate (Name + DOI)"
  else "Basic (Scholar-only)".

(** *** Verification logic *)

Definition build_result (pub : Pub.t) (best : option Candidate.t) (score : Q)
    (label reason strength : string) : Verification.t :=
  Verification.make
    (Pub.title pub)
    (match best with Some b => Candidate.title b | None => "" end)
    (match best with Some b => Candidate.source b | None => "Google Scholar only" end)
    (match best with Some b => Candidate.doi b | None => Some ""%string end)
    score
    label
    strength
    reason.

(** The variables the candidate loop updates. *)
Record selection : Type := {
  best : option Candidate.t;
  best_score : Q;
  best_author_score : Q;
  best_doi : bool
}.

Definition selection_init : selection :=
  {| best := None; best_score := -1; best_author_score := 0; best_doi := false |}.

(** The score the loop body computes for one candidate:
    [0.65 * ts + 0.25 * ascore + (5 if doi_present else 0) + bonus],
    evaluated from left to right in floating point. *)
Definition composite_score (ts ascore : Q) (doi_present : bool) (bonus : Z) : Q :=
  fadd
    (fadd
       (fadd (fmul (binary64 (65 # 100)) ts) (fmul (binary64 (25 # 100)) ascore))
       (if doi_present then 5 else 0))
    (inject_Z bonus).

Section Loop.

Variable pub : Pub.t.
Variable author_name : string.
Variables orcid scopus_id researcher_id : option string.

(** One iteration of [for c in candidates]. *)
Definition consider (st : selection) (c : Candidate.t) : result selection :=
  let ts := title_score (Some (Pub.title pub)) (Some (Candidate.title c)) in
  ascore <- author_name_score (Some author_name) (Candidate.authors c) ;;
  let doi_present := Py.truthy (Candidate.doi c) in
  let score :=
    composite_score ts ascore doi_present
      (id_bonus orcid scopus_id researcher_id (Some c)) in
  Ok (if Qltb (best_score st) score
      then {| best := Some c; best_score := score;
              best_author_score := ascore; best_doi := doi_present |}
      else st).

Fixpoint select (st : selection) (candidates : list Candidate.t) : result selection :=
  match candidates with
  | [] => Ok st
  | c :: cs => st' <- consider st c ;; select st' cs
  end.

Definition verify_publication : result Verification.t :=
  let candidates :=
    (crossref_lookup (Pub.title pub) ++ semantic_lookup (Pub.title pub))%list in
  match candidates with
  | [] =>
      Ok (build_result pub None 85 "SCHOLAR-CLAIMED OUTPUT"
            "No external bibliographic record found"
            (verification_strength orcid false))
  | _ :: _ =>
      st <- select selection_init candidates ;;
      let label :=
        if Qle_bool 85 (best_author_score st) then "AUTHENTIC"
        else if Qle_bool 75 (best_score st) then "LIKELY AUTHENTIC"
        else if Qle_bool 60 (best_score st) then "SCHOLAR-CLAIMED OUTPUT"
        else "LIKELY MISATTRIBUTED" in
      Ok (build_result pub (best st) (cap_score (best_score st)) label
            "Automated bibliographic verification"
            (verification_strength orcid (best_doi st)))
  end.

End Loop.

(** *** Main: the verification loop and the report

    The prompt answers and the publications fetched from the profile
    are arguments; printing and sleeping are left out. *)

Inductive csv_line : Type :=
| Header (fieldnames : list string)
| Row (r : Verification.t).

Record summary_line : Type := {
  authentic : Z;
  total : nat;
  percent : Q
}.

(** What a run leaves behind: the report file, if it was opened, with
    the lines written to it, and either the summary or the exception
    that ended the run. *)
Record run : Type := {
  outfile : option (string * list csv_line);
  outcome : result summary_line
}.

(** [for i, pub in enumerate(pubs, 1)]. *)
Fixpoint verify_all (name : string) (orcid scopus_id researcher_id : option string)
    (pubs : list Pub.t) (results : list Verification.t) (authentic_count : Z)
    : result (list Verification.t * Z) :=
  match pubs with
  | [] => Ok (results, authentic_count)
  | pub :: pubs' =>
      res <- verify_publication pub name orcid scopus_id researcher_id ;;
      let authentic_count :=
        if String.eqb (Verification.classification res) "AUTHENTIC"
        then (authentic_count + 1)%Z else authentic_count in
      verify_all name orcid scopus_id researcher_id pubs'
        (results ++ [res])%list authentic_count
  end.

(** The body of [with open(outfile, "w") as f]. *)
Definition write_report (results : list Verification.t) : list csv_line * result unit :=
  match first_item results with
  | Raise e => ([], Raise e)
  | Ok r0 => ((Header (Verification.keys r0) :: map Row results)%list, Ok tt)
  end.

(** The percentage of the summary line. *)
Definition summary (authentic_count : Z) (results : list Verification.t)
    : result summary_line :=
  ratio <- py_div (inject_Z authentic_count) (inject_Z (Z.of_nat (List.length results))) ;;
  Ok {| authentic := authentic_count;
        total := List.length results;
        percent := py_round (fmul ratio 100) 1 |}.

Definition main (name : string) (orcid scopus_id researcher_id : option string)
    (publications : list (option string)) : run :=
  let pubs :=
    flat_map (fun t => if Py.truthy t then [Pub.make (get t "")] else [])
      publications in
  let safe_name :=
    Py.map (fun c => if Ascii.eqb c " " then "_"%char else c) (normalize (Some name)) in
  let path := "verification_report_" ++ safe_name ++ ".csv" in
  match verify_all name orcid scopus_id researcher_id pubs [] 0 with
  | Raise e => {| outfile := None; outcome := Raise e |}
  | Ok (results, authentic_count) =>
      let (lines, written) := write_report results in
      {| outfile := Some (path, lines);
         outcome := _ <- written ;; summary authentic_count results |}
  end.

End Program.

(** ** Interactive input

    Standard input is the list of the lines still to be read; [input()]
    takes the first one and raises [EOFError], here [None], when none is
    left. The prompts that are printed are left out. *)

(** [v = input(...).strip()] followed by
    [while not v: v = input(...).strip()]. *)
Fixpoint prompt_required (stdin : list string) : option (string * list string) :=
  match stdin with
  | [] => None
  | line :: rest =>
      let v := Py.strip line in
      if Py.truthy (Some v) then Some (v, rest) else prompt_required rest
  end.

(** [input(...).strip() or None]. *)
Definition prompt_optional (stdin : list string) : option (option string * list string) :=
  match stdin with
  | [] => None
  | line :: rest =>
      let v := Py.strip line in
      Some (if Py.truthy (Some v) then Some v else None, rest)
  end.

(** The answers [prompt_inputs] returns. *)
Record answers : Type := {
  ans_name : string;
  ans_scholar_id : string;
  ans_orcid : option string;
  ans_scopus_id : option string;
  ans_researcher_id : option string
}.

Definition prompt_inputs (stdin : list string) : option (answers * list string) :=
  match prompt_required stdin with
  | None => None
  | Some (name, stdin1) =>
      match prompt_required stdin1 with
      | None => None
      | Some (scholar_id, stdin2) =>
          match prompt_optional stdin2 with
          | None => None
          | Some (orcid, stdin3) =>
              match prompt_optional stdin3 with
              | None => None
              | Some (scopus_id, stdin4) =>
                  match prompt_optional stdin4 with
                  | None => None
                  | Some (researcher_id, stdin5) =>
                      Some ({| ans_name := name;
                               ans_scholar_id := scholar_id;
                               ans_orcid := orcid;
                               ans_scopus_id := scopus_id;
                               ans_researcher_id := researcher_id |}, stdin5)
                  end
              end
          end
      end
  end.

(** ** Instances used to evaluate the program *)

(** A stand-in for a similarity function: 100 on equal strings, else 0. *)
Definition exact_ratio (a b : string) : Q :=
  if String.eqb a b then 100 else 0.

(** A network on which every request fails. *)
Definition offline (_ : request) : result response := Raise RequestException.

(** A network whose Crossref endpoint answers with [items] and whose
    Semantic Scholar endpoint answers with [papers]. *)
Definition serving (items : list Crossref.item) (papers : list Semantic.paper)
    (rq : request) : result response :=
  if String.eqb (url rq) "https://api.crossref.org/works"
  then Ok {| ok := true;
             json := Ok (CrossrefDoc
                           {| Crossref.message_ := Some {| Crossref.items := Some items |} |}) |}
  else Ok {| ok := true;
             json := Ok (SemanticDoc {| Semantic.data := Some papers |}) |}.

Definition crossref_hit (title : string) (given family : string) (doi : option string)
    : Crossref.item :=
  {| Crossref.title := Some [title];
     Crossref.author_ := Some [{| Crossref.given := Some given;
                                  Crossref.family := Some family;
                                  Crossref.ORCID := None |}];
     Crossref.DOI := doi |}.

Definition semantic_hit (title : string) (author : string) (doi : option string)
    : Semantic.paper :=
  {| Semantic.title := Some title;
     Semantic.authors := Some [{| Semantic.name := Some author |}];
     Semantic.externalIds := Some {| Semantic.DOI := doi |} |}.

(** A claimed publication and a network on which both services know it
    under the same author, so that the two candidates score alike. *)
Definition sample_pub : Pub.t := Pub.make "Deep Learning for X".

Definition sample_web : request -> result response :=
  serving
    [crossref_hit "Deep learning for X" "Jane" "Smith" (Some "10.1000/x"%string)]
    [semantic_hit "Deep Learning for X." "Jane Smith" (Some "10.1000/x"%string)].

(** A network whose services answer with four records each. *)
Definition generous_web : request -> result response :=
  serving
    [crossref_hit "A" "Ann" "Lee" None; crossref_hit "B" "Ann" "Lee" None;
     crossref_hit "C" "Ann" "Lee" None; crossref_hit "D" "Ann" "Lee" None]
    [semantic_hit "A" "Ann Lee" None; semantic_hit "B" "Ann Lee" None;
     semantic_hit "C" "Ann Lee" None; semantic_hit "D" "Ann Lee" None].


(** Responses in which one record is malformed: a Crossref record whose
    title list is empty, a Semantic Scholar author without a name. *)
Definition flawed_items : list Crossref.item :=
  [crossref_hit "A" "Ann" "Lee" None;
   {| Crossref.title := Some []; Crossref.author_ := None; Crossref.DOI := None |}].

Definition flawed_papers : list Semantic.paper :=
  [semantic_hit "A" "Ann Lee" None;
   {| Semantic.title := Some "B"%string;
      Semantic.authors := Some [{| Semantic.name := None |}];
      Semantic.externalIds := None |}].

Definition flawed_web : request -> result response :=
  serving flawed_items flawed_papers.

(** Lines typed at the prompts: a blank line first, then the name, a
    blank line, the Scholar ID, no ORCID, a Scopus ID, no Researcher ID. *)
Definition typed_lines : list string :=
  ["   "; "  Jane Smith "; ""; "abc123"; ""; " 57 "; " "]%string.

(** A stand-in for a similarity function that answers from a table
    keyed by its second argument, 0 where the table says nothing. *)
Fixpoint scripted (table : list (string * Q)) (a b : string) : Q :=
  match table with
  | [] => 0
  | (k, v) :: rest => if String.eqb b k then v else scripted rest a b
  end.

(** The float that the literal [92.3076923076923] denotes: a title
    score for which [0.65 * ts + 0.25 * 60] is 75.0 in floating point
    and less than 75 in exact arithmetic. *)
Definition near_title_score : Q := binary64 (923076923076923 # 10000000000000).

Definition title_table : list (string * Q) :=
  [("close"%string, near_title_score); ("exact"%string, 100)].

Definition author_table : list (string * Q) :=
  [("sixty"%string, 60); ("forty"%string, 40); ("fortyone"%string, 83 # 2)].

(** Networks whose Crossref endpoint knows a close title under an author
    scoring 60, followed by the exact title under an author scoring 40,
    and a close title under an author scoring 41.5. *)
Definition threshold_web : request -> result response :=
  serving [crossref_hit "close" "sixty" "" None; crossref_hit "exact" "forty" "" None] [].

Definition halfway_web : request -> result response :=
  serving [crossref_hit "close" "fortyone" "" None] [].

(** ** Vocabulary of the statements *)

Section Vocabulary.

Variable partial_ratio : string -> string -> Q.
Variable token_set_ratio : string -> string -> Q.
Variable requests_get : request -> result response.

(** The candidate pool of a title: Crossref first, then Semantic Scholar. *)
Definition pool (title : string) : list Candidate.t :=
  (crossref_lookup requests_get title ++ semantic_lookup requests_get title)%list.

(** The author score and the composite score of one candidate. *)
Definition candidate_scores (pub : Pub.t) (author_name : string)
    (orcid scopus_id researcher_id : option string) (c : Candidate.t) : result (Q * Q) :=
  ascore <- author_name_score partial_ratio (Some author_name) (Candidate.authors c) ;;
  Ok (ascore,
      composite_score
        (title_score token_set_ratio (Some (Pub.title pub)) (Some (Candidate.title c)))
        ascore
        (Py.truthy (Candidate.doi c))
        (id_bonus orcid scopus_id researcher_id (Some c))).

(** The three name variants scored against one normalized author. *)
Definition variant_scores (full last : string) (initial : ascii) (author : string) : list Q :=
  [ partial_ratio full (normalize (Some author));
    partial_ratio last (normalize (Some author));
    partial_ratio (String initial (" " ++ last)) (normalize (Some author)) ].

End Vocabulary.

(** The loop variables once candidate [c], with author score [a] and
    composite score [s], has become the best one. *)
Definition chosen (c : Candidate.t) (a s : Q) : selection :=
  {| best := Some c; best_score := s; best_author_score := a;
     best_doi := Py.truthy (Candidate.doi c) |}.

(** Candidate [c] is the one the Crossref adapter builds from record
    [i]: first title (or [""] when the key is missing), one stripped
    "given family" string for each author, the DOI, the non-empty ORCID
    iDs of the authors. *)
Definition crossref_record (i : Crossref.item) (c : Candidate.t) : Prop :=
  Candidate.title c = hd ""%string (get (Crossref.title i) [""%string])
  /\ Candidate.authors c
     = map (fun a => Py.strip (get (Crossref.given a) "" ++ " "
                               ++ get (Crossref.family a) ""))
         (get (Crossref.author_ i) [])
  /\ Candidate.doi c = Crossref.DOI i
  /\ Candidate.orcid c
     = Some (map (fun a => get (Crossref.ORCID a) ""%string)
               (filter (fun a => Py.truthy (Crossref.ORCID a))
                  (get (Crossref.author_ i) [])))
  /\ Candidate.source c = "Crossref"%string.

(** Candidate [c] is the one the Semantic Scholar adapter builds from
    record [d]: title (or [""]), the names of the authors, the DOI among
    the external ids, no ORCID key. *)
Definition semantic_record (d : Semantic.paper) (c : Candidate.t) : Prop :=
  Candidate.title c = get (Semantic.title d) ""%string
  /\ map Some (Candidate.authors c) = map Semantic.name (get (Semantic.authors d) [])
  /\ Candidate.doi c = match Semantic.externalIds d with
                       | Some ids => Semantic.DOI ids
                       | None => None
                       end
  /\ Candidate.orcid c = None
  /\ Candidate.source c = "SemanticScholar"%string.

(** The claimed ORCID is non-empty and occurs in the candidate's ORCID set. *)
Definition orcid_confirmed (orcid : option string) (hit : option Candidate.t) : Prop :=
  exists o h, orcid = Some o /\ o <> ""%string /\ hit = Some h
              /\ In o (get (Candidate.orcid h) []).

(** The publications that enter the verification loop of [main]. *)
Definition titled (publications : list (option string)) : list (option string) :=
  filter Py.truthy publications.

(** A character as it can occur in a word of a normalized text. *)
Definition settled (c : ascii) : bool :=
  Py.isword c && Ascii.eqb (Py.lower_char c) c.

Definition word_of (p : ascii -> bool) (w : string) : Prop :=
  w <> ""%string /\ Py.all (fun c => negb (Py.isspace c) && p c) w = true.

(** The number of results labelled AUTHENTIC. *)
Definition count_authentic (results : list Verification.t) : Z :=
  Z.of_nat
    (List.length
       (filter (fun r => String.eqb (Verification.classification r) "AUTHENTIC") results)).

(** The most the identifiers that were supplied can add to a score. *)
Definition bonus_ceiling (orcid scopus_id researcher_id : option string) : Z :=
  ((if Py.truthy orcid then 15 else 0)
   + (if Py.truthy scopus_id then 5 else 0)
   + (if Py.truthy researcher_id then 5 else 0))%Z.

(** A line that [prompt_required] skips. *)
Definition blank (line : string) : Prop := Py.strip line = ""%string.

(** An answer as [prompt_optional] can return it. *)
Definition clean_optional (o : option string) : Prop :=
  match o with
  | None => True
  | Some v => v <> ""%string /\ Py.strip v = v
  end.

(** * Properties *)

(** ** Characters and strings *)

Section TextFacts.

Local Open Scope string_scope.

Lemma lower_char_idem (c : ascii) : Py.lower_char (Py.lower_char c) = Py.lower_char c.
Proof. destruct c as [[] [] [] [] [] [] [] []]; reflexivity. Qed.

Lemma sub_lower_settled (c : ascii) :
  let c1 := Py.lower_char c in
  let c2 := if is_punct c1 then " "%char else c1 in
  Py.isspace c2 || settled c2 = true.
Proof. destruct c as [[] [] [] [] [] [] [] []]; reflexivity. Qed.

Lemma all_impl (p q : ascii -> bool) (s : string) :
  (forall c, p c = true -> q c = true) -> Py.all p s = true -> Py.all q s = true.
Proof.
  intros Hpq. induction s as [|c s IH]; simpl; [trivial|].
  rewrite !andb_true_iff. intros [Hc Hs]. split; auto.
Qed.

Lemma all_app (p : ascii -> bool) (s t : string) :
  Py.all p (s ++ t) = Py.all p s && Py.all p t.
Proof.
  induction s as [|c s IH]; simpl; [reflexivity|].
  now rewrite IH, andb_assoc.
Qed.

Lemma all_join (p : ascii -> bool) (ws : list string) :
  p " "%char = true ->
  Forall (fun w => Py.all p w = true) ws ->
  Py.all p (Py.join " " ws) = true.
Proof.
  intros Hsp. unfold Py.join.
  induction ws as [|w ws IH]; intros Hws; [reflexivity|].
  inversion Hws as [|? ? Hw Hrest]; subst.
  destruct ws as [|w' ws']; [exact Hw|].
  change (Py.all p (w ++ " " ++ concat " " (w' :: ws')) = true).
  rewrite !all_app, Hw, (IH Hrest). simpl. now rewrite Hsp.
Qed.

Lemma map_fixed (f : ascii -> ascii) (s : string) :
  Py.all (fun c => Ascii.eqb (f c) c) s = true -> Py.map f s = s.
Proof.
  induction s as [|c s IH]; simpl; [trivial|].
  rewrite andb_true_iff. intros [Hc Hs].
  apply Ascii.eqb_eq in Hc. now rewrite Hc, IH.
Qed.

Lemma split_space (s : string) : Py.split (String " " s) = Py.split s.
Proof. reflexivity. Qed.

Lemma split_cons_word (c : ascii) (s : string) :
  Py.isspace c = false -> Py.split (String c s) <> [].
Proof.
  intros Hc. simpl. rewrite Hc.
  destruct (Py.at_boundary s); [discriminate|].
  destruct (Py.split s); discriminate.
Qed.

(** Every word of [split u] is non-empty, free of whitespace, and made
    of characters of [u]. *)
Lemma split_words (p : ascii -> bool) (u : string) :
  Py.all (fun c => Py.isspace c || p c) u = true ->
  Forall (word_of p) (Py.split u).
Proof.
  induction u as [|c u IH]; simpl; [constructor|].
  rewrite andb_true_iff. intros [Hc Hu]. specialize (IH Hu).
  destruct (Py.isspace c) eqn:Ec; [exact IH|]. simpl in Hc.
  assert (Hone : word_of p (String c "")).
  { split; [discriminate|]. simpl. now rewrite Ec, Hc. }
  destruct (Py.at_boundary u); [now constructor|].
  destruct (Py.split u) as [|w ws]; [now constructor|].
  inversion IH as [|? ? [Hne Hw] Hws]; subst.
  constructor; [|exact Hws].
  split; [discriminate|]. simpl. now rewrite Ec, Hc, Hw.
Qed.

Lemma split_word_app (p : ascii -> bool) (w r : string) :
  word_of p w -> Py.at_boundary r = true -> Py.split (w ++ r) = w :: Py.split r.
Proof.
  intros [Hne Hw] Hr. induction w as [|c w IH]; [congruence|].
  simpl in Hw. apply andb_true_iff in Hw as [Hc Hw].
  apply andb_true_iff in Hc as [Hc _]. apply negb_true_iff in Hc.
  destruct w as [|c' w'].
  - simpl. now rewrite Hc, Hr.
  - assert (Hb : Py.at_boundary (String c' w' ++ r) = false).
    { simpl in Hw |- *. apply andb_true_iff in Hw as [Hc' _].
      apply andb_true_iff in Hc' as [Hc' _]. now apply negb_true_iff in Hc'. }
    change (Py.split (String c (String c' w' ++ r)) = String c (String c' w') :: Py.split r).
    cbn [Py.split]. rewrite Hc, Hb, IH; [reflexivity|discriminate|exact Hw].
Qed.

Lemma append_empty (s : string) : s ++ "" = s.
Proof. induction s as [|c s IH]; simpl; congruence. Qed.

Lemma split_join (p : ascii -> bool) (ws : list string) :
  Forall (word_of p) ws -> Py.split (Py.join " " ws) = ws.
Proof.
  unfold Py.join. induction ws as [|w ws IH]; intros Hws; [reflexivity|].
  inversion Hws as [|? ? Hw Hrest]; subst.
  destruct ws as [|w' ws'].
  - simpl. rewrite <- (append_empty w) at 1.
    now rewrite (split_word_app p w "" Hw).
  - change (Py.split (w ++ " " ++ concat " " (w' :: ws')) = w :: w' :: ws').
    rewrite (split_word_app p w _ Hw); [|reflexivity].
    change (" " ++ concat " " (w' :: ws')) with (String " " (concat " " (w' :: ws'))).
    now rewrite split_space, (IH Hrest).
Qed.

Lemma join_words_nonempty (p : ascii -> bool) (w : string) (ws : list string) :
  word_of p w -> Py.join " " (w :: ws) <> "".
Proof.
  intros [Hne _]. unfold Py.join. simpl.
  destruct ws; destruct w; simpl; congruence.
Qed.

Lemma normalize_some (t : string) :
  normalize (Some t) = Py.join " " (Py.split (sub_punct (Py.lower t))).
Proof. destruct t; reflexivity. Qed.

Lemma normalize_words (t : string) :
  Forall (word_of settled) (Py.split (sub_punct (Py.lower t))).
Proof.
  apply split_words. unfold sub_punct, Py.lower.
  induction t as [|c t IH]; cbn [Py.map Py.all]; [reflexivity|].
  rewrite IH, andb_true_r. apply sub_lower_settled.
Qed.

(** A text made of settled words joined by single spaces is left
    unchanged by [normalize]. *)
Lemma normalize_fixed (ws : list string) :
  Forall (word_of settled) ws ->
  normalize (Some (Py.join " " ws)) = Py.join " " ws.
Proof.
  intros Hws. rewrite normalize_some.
  assert (Hall : forall q : ascii -> bool,
             q " "%char = true ->
             (forall c, negb (Py.isspace c) && settled c = true -> q c = true) ->
             Py.all q (Py.join " " ws) = true).
  { intros q Hsp Hq. apply all_join; [exact Hsp|].
    eapply Forall_impl; [|exact Hws].
    intros w [_ Hw]. eapply all_impl; [|exact Hw]. exact Hq. }
  assert (Hlow : Py.lower (Py.join " " ws) = Py.join " " ws).
  { apply map_fixed, Hall; [reflexivity|].
    intros c Hc. apply andb_true_iff in Hc as [_ Hc].
    unfold settled in Hc. now apply andb_true_iff in Hc as [_ Hc]. }
  rewrite Hlow.
  assert (Hsub : sub_punct (Py.join " " ws) = Py.join " " ws).
  { apply map_fixed, Hall; [reflexivity|].
    intros c Hc. apply andb_true_iff in Hc as [Hns Hc].
    unfold settled in Hc. apply andb_true_iff in Hc as [Hword _].
    unfold is_punct. rewrite Hword. simpl. apply Ascii.eqb_refl. }
  rewrite Hsub. now rewrite (split_join settled).
Qed.

Lemma boundary_squeeze (t : string) :
  Py.at_boundary (Py.squeeze is_punct false t) = Py.at_boundary (sub_punct t).
Proof. destruct t as [|c t]; simpl; [reflexivity|]. now destruct (is_punct c). Qed.

Lemma split_squeeze_punct (t : string) (b : bool) :
  Py.split (Py.squeeze is_punct b t) = Py.split (sub_punct t).
Proof.
  revert b. induction t as [|c t IH]; intros b; [reflexivity|].
  unfold sub_punct. cbn [Py.squeeze Py.map]. fold (sub_punct t).
  destruct (is_punct c).
  - rewrite split_space. destruct b; [|rewrite split_space]; apply IH.
  - cbn [Py.split]. now rewrite boundary_squeeze, !IH.
Qed.

Lemma lstrip_squeeze (u : string) (b : bool) :
  Py.lstrip (Py.squeeze Py.isspace b u) = Py.squeeze Py.isspace true u.
Proof.
  revert b. induction u as [|c u IH]; intros b; [reflexivity|].
  cbn [Py.squeeze]. destruct (Py.isspace c) eqn:Ec.
  - destruct b; [apply IH|]. change (Py.lstrip (Py.squeeze Py.isspace true u) = Py.squeeze Py.isspace true u).
    apply IH.
  - cbn [Py.lstrip]. now rewrite Ec.
Qed.

Lemma rstrip_squeeze (u : string) :
  Py.rstrip (Py.squeeze Py.isspace true u) = Py.join " " (Py.split u)
  /\ Py.rstrip (Py.squeeze Py.isspace false u)
     = if Py.at_boundary u
       then match Py.split u with
            | [] => ""
            | ws => " " ++ Py.join " " ws
            end
       else Py.join " " (Py.split u).
Proof.
  induction u as [|c u [IHt IHf]]; [split; reflexivity|].
  pose proof (split_words (fun _ => true) u) as Hwords.
  assert (Hu : Forall (word_of (fun _ => true)) (Py.split u)).
  { apply Hwords. clear. induction u as [|c u IH]; simpl; [reflexivity|].
    now rewrite IH, orb_true_r. }
  clear Hwords.
  cbn [Py.squeeze Py.at_boundary Py.split]. destruct (Py.isspace c) eqn:Ec.
  - split; [exact IHt|].
    cbn [Py.rstrip]. rewrite IHt.
    destruct (Py.split u) as [|w ws]; [reflexivity|].
    inversion Hu as [|? ? Hw _]; subst.
    pose proof (join_words_nonempty _ w ws Hw) as Hne.
    destruct (Py.join " " (w :: ws)); [congruence|reflexivity].
  - assert (Hgoal : Py.rstrip (String c (Py.squeeze Py.isspace false u))
                    = Py.join " "
                        (if Py.at_boundary u then String c "" :: Py.split u
                         else match Py.split u with
                              | w :: ws => String c w :: ws
                              | [] => [String c ""]
                              end)).
    { cbn [Py.rstrip]. rewrite IHf, Ec.
      destruct (Py.at_boundary u) eqn:Eb.
      - destruct (Py.split u) as [|w ws]; reflexivity.
      - destruct u as [|c' u']; [discriminate|].
        simpl in Eb. pose proof (split_cons_word c' u' Eb) as Hne.
        destruct (Py.split (String c' u')) as [|w ws]; [congruence|].
        inversion Hu as [|? ? Hw _]; subst.
        pose proof (join_words_nonempty _ w ws Hw) as Hj.
        unfold Py.join in *. cbn [concat] in *.
        destruct ws as [|w' ws'].
        + destruct w; [congruence|reflexivity].
        + destruct w; [destruct Hw; congruence|]. reflexivity. }
    split; [exact Hgoal|].
    rewrite Hgoal. now destruct (Py.at_boundary u).
Qed.

(** C7 (as amended). [normalize] lower-cases its input, replaces every
    run of characters that are neither word characters (alphanumeric or
    underscore) nor whitespace by a single space, collapses repeated
    whitespace to single spaces and trims; an empty or absent input
    gives the empty string. *)
Theorem normalize_matches_spec_on_word_class :
  (forall text, normalize text = normalize_spec Py.isword text)
  /\ normalize None = ""
  /\ normalize (Some "") = "".
Proof.
  split; [|split; reflexivity].
  intros [t|]; [|reflexivity].
  rewrite normalize_some. unfold normalize_spec, Py.strip.
  rewrite lstrip_squeeze.
  destruct (rstrip_squeeze
              (Py.squeeze (fun c => negb (Py.isword c) && negb (Py.isspace c)) false
                 (Py.lower t))) as [-> _].
  f_equal. symmetry. apply (split_squeeze_punct (Py.lower t) false).
Qed.

(** C7 (as stated) fails: an underscore is a word character, so it is
    kept, while the stated rule turns it into a space. *)
Lemma normalize_keeps_underscore :
  normalize (Some "a_b") = "a_b"
  /\ normalize_spec Py.isalnum (Some "a_b") = "a b"
  /\ normalize (Some "a_b") <> normalize_spec Py.isalnum (Some "a_b").
Proof. repeat split; try reflexivity. vm_compute. discriminate. Qed.

(** C8. [normalize] is idempotent. *)
Theorem normalize_idempotent :
  forall text : option string, normalize (Some (normalize text)) = normalize text.
Proof.
  intros [t|]; [|reflexivity].
  rewrite (normalize_some t).
  apply normalize_fixed, normalize_words.
Qed.

End TextFacts.

(** ** Numbers *)

Section NumberFacts.

Local Open Scope Q_scope.

Lemma Qltb_lt (x y : Q) : Qltb x y = true <-> x < y.
Proof.
  unfold Qltb. rewrite negb_true_iff. split.
  - intros H. apply Qnot_le_lt. intros Hle.
    apply Qle_bool_iff in Hle. congruence.
  - intros H. destruct (Qle_bool y x) eqn:E; [|reflexivity].
    apply Qle_bool_iff in E. exfalso. exact (Qlt_not_le _ _ H E).
Qed.

Lemma Qltb_ge (x y : Q) : Qltb x y = false <-> y <= x.
Proof.
  unfold Qltb. rewrite negb_false_iff. apply Qle_bool_iff.
Qed.

Lemma py_min_le_right (a b : Q) : py_min a b <= b.
Proof.
  unfold py_min. destruct (Qltb b a) eqn:E.
  - apply Qle_refl.
  - now apply Qltb_ge in E.
Qed.

Lemma py_min_lower (a b l : Q) : l <= a -> l <= b -> l <= py_min a b.
Proof. intros Ha Hb. unfold py_min. now destruct (Qltb b a). Qed.

Lemma py_max_upper (xs : list Q) (x : Q) :
  x <= py_max x xs /\ forall y, In y xs -> y <= py_max x xs.
Proof.
  revert x. induction xs as [|z xs IH]; intros x; simpl.
  - split; [apply Qle_refl|tauto].
  - unfold py_max in *. simpl.
    destruct (IH (if Qltb x z then z else x)) as [H1 H2].
    destruct (Qltb x z) eqn:E.
    + apply Qltb_lt in E. split.
      * eapply Qle_trans; [apply Qlt_le_weak, E|exact H1].
      * intros y [<-|Hy]; auto.
    + apply Qltb_ge in E. split; [exact H1|].
      intros y [<-|Hy]; [|auto]. eapply Qle_trans; [exact E|exact H1].
Qed.

Lemma py_max_in (xs : list Q) (x : Q) : In (py_max x xs) (x :: xs).
Proof.
  revert x. induction xs as [|z xs IH]; intros x.
  - left. reflexivity.
  - unfold py_max in *. simpl fold_left.
    destruct (IH (if Qltb x z then z else x)) as [H|H].
    + destruct (Qltb x z); [right; left; exact H|left; exact H].
    + right. right. exact H.
Qed.

Lemma round_half_even_nonneg (q : Q) : 0 <= q -> (0 <= round_half_even q)%Z.
Proof.
  intros Hq. unfold round_half_even.
  assert (H0 : (0 <= Qfloor q)%Z).
  { change 0%Z with (Qfloor 0). now apply Qfloor_resp_le. }
  destruct (Qcompare _ _); [destruct (Z.even _)| |]; lia.
Qed.

Lemma round_half_even_bounds (q : Q) :
  (Qfloor q <= round_half_even q <= Qfloor q + 1)%Z.
Proof.
  unfold round_half_even.
  destruct (Qcompare _ _); [destruct (Z.even _)| |]; lia.
Qed.

Lemma round_half_even_mono (q q' : Q) :
  q <= q' -> (round_half_even q <= round_half_even q')%Z.
Proof.
  intros Hle. pose proof (Qfloor_resp_le _ _ Hle) as Hfloor.
  pose proof (round_half_even_bounds q) as Hb.
  pose proof (round_half_even_bounds q') as Hb'.
  destruct (Z.eq_dec (Qfloor q) (Qfloor q')) as [E|E]; [|lia].
  unfold round_half_even in *. rewrite <- E in *. clear E Hfloor.
  set (n := Qfloor q) in *.
  destruct (Qcompare (q - inject_Z n) (1 # 2)) eqn:C;
    destruct (Qcompare (q' - inject_Z n) (1 # 2)) eqn:C'; try lia.
  - apply Qeq_alt in C. apply Qlt_alt in C'. exfalso. lra.
  - apply Qgt_alt in C. apply Qeq_alt in C'. exfalso. lra.
  - apply Qgt_alt in C. apply Qlt_alt in C'. exfalso. lra.
Qed.

Lemma round_half_even_int (n : Z) : round_half_even (inject_Z n) = n.
Proof.
  unfold round_half_even. rewrite Qfloor_Z.
  assert (C : Qcompare (inject_Z n - inject_Z n) (1 # 2) = Lt).
  { apply -> Qlt_alt. unfold Qlt. simpl. lia. }
  now rewrite C.
Qed.

Lemma round_half_even_near (q : Q) :
  - (1 # 2) <= q - inject_Z (round_half_even q) <= 1 # 2.
Proof.
  pose proof (Qfloor_le q) as Hlo. pose proof (Qlt_floor q) as Hhi.
  rewrite inject_Z_plus in Hhi. change (inject_Z 1) with 1 in Hhi.
  unfold round_half_even. set (n := Qfloor q) in *.
  destruct (Qcompare (q - inject_Z n) (1 # 2)) eqn:C.
  - apply Qeq_alt in C. destruct (Z.even n).
    + lra.
    + rewrite inject_Z_plus. change (inject_Z 1) with 1. lra.
  - apply Qlt_alt in C. lra.
  - apply Qgt_alt in C. rewrite inject_Z_plus. change (inject_Z 1) with 1. lra.
Qed.

(** Powers of two and the exponent of a positive number. *)

Lemma pow2_pos (e : Z) : 0 < 2 ^ e.
Proof. apply Qpower_0_lt. reflexivity. Qed.

Lemma pow2_plus (a b : Z) : 2 ^ (a + b) == 2 ^ a * 2 ^ b.
Proof. apply Qpower_plus. discriminate. Qed.

Lemma pow2_le (a b : Z) : (a <= b)%Z -> 2 ^ a <= 2 ^ b.
Proof. intros H. apply Qpower_le_compat_l; [exact H|discriminate]. Qed.

Lemma pow2_lt_inv (a b : Z) : 2 ^ a < 2 ^ b -> (a < b)%Z.
Proof. intros H. apply (Qpower_lt_compat_l_inv 2); [exact H|reflexivity]. Qed.

Lemma pow2_inject (a : Z) : (0 <= a)%Z -> inject_Z (2 ^ a) == 2 ^ a.
Proof. intros H. now rewrite Zpower_Qpower. Qed.

Lemma Qnum_pos (x : Q) : 0 < x -> (0 < Qnum x)%Z.
Proof. unfold Qlt. simpl. lia. Qed.

Lemma Q_num_den (x : Q) : inject_Z (Qnum x) == x * inject_Z (Zpos (Qden x)).
Proof. destruct x as [n d]. unfold Qeq. simpl. lia. Qed.

Lemma floor_log2_spec (x : Q) :
  0 < x -> 2 ^ floor_log2 x <= x /\ x < 2 ^ (floor_log2 x + 1).
Proof.
  intros Hx. pose proof (Qnum_pos x Hx) as Hn.
  pose proof (Q_num_den x) as Hnd.
  destruct (Z.log2_spec (Qnum x) Hn) as [Hna Hnb].
  assert (Hd : (0 < Zpos (Qden x))%Z) by lia.
  destruct (Z.log2_spec (Zpos (Qden x)) Hd) as [Hda Hdb].
  pose proof (Z.log2_nonneg (Qnum x)) as Ha0.
  pose proof (Z.log2_nonneg (Zpos (Qden x))) as Hb0.
  set (a := Z.log2 (Qnum x)) in *. set (b := Z.log2 (Zpos (Qden x))) in *.
  rewrite Zle_Qle, pow2_inject in Hna by exact Ha0.
  rewrite Zlt_Qlt, pow2_inject in Hnb by lia.
  rewrite Zle_Qle, pow2_inject in Hda by exact Hb0.
  rewrite Zlt_Qlt, pow2_inject in Hdb by lia.
  set (n := inject_Z (Qnum x)) in *. set (d := inject_Z (Zpos (Qden x))) in *.
  assert (Hup : x < 2 ^ (a - b + 1)).
  { apply (Qmult_lt_r _ _ (2 ^ b)); [apply pow2_pos|].
    rewrite <- pow2_plus. replace (a - b + 1 + b)%Z with (Z.succ a) by lia.
    eapply Qle_lt_trans; [|exact Hnb]. rewrite Hnd.
    apply Qmult_le_l; [exact Hx|exact Hda]. }
  assert (Hlow : 2 ^ (a - b - 1) < x).
  { apply (Qmult_lt_r _ _ (2 ^ Z.succ b)); [apply pow2_pos|].
    rewrite <- pow2_plus. replace (a - b - 1 + Z.succ b)%Z with a by lia.
    eapply Qle_lt_trans; [exact Hna|]. rewrite Hnd.
    apply Qmult_lt_l; [exact Hx|exact Hdb]. }
  unfold floor_log2. fold a b.
  destruct (Qle_bool (2 ^ (a - b)) x) eqn:E.
  - apply Qle_bool_iff in E. now split.
  - split; [now apply Qlt_le_weak|].
    replace (a - b - 1 + 1)%Z with (a - b)%Z by lia.
    apply Qnot_le_lt. intros Hle. apply Qle_bool_iff in Hle. congruence.
Qed.

Lemma floor_log2_mono (x y : Q) : 0 < x -> x <= y -> (floor_log2 x <= floor_log2 y)%Z.
Proof.
  intros Hx Hxy.
  assert (Hy : 0 < y) by (eapply Qlt_le_trans; eassumption).
  destruct (floor_log2_spec x Hx) as [Hlo _].
  destruct (floor_log2_spec y Hy) as [_ Hhi].
  assert (H : 2 ^ floor_log2 x < 2 ^ (floor_log2 y + 1)).
  { eapply Qle_lt_trans; [exact Hlo|]. eapply Qle_lt_trans; eassumption. }
  apply pow2_lt_inv in H. lia.
Qed.

Lemma round_pos_nonneg (x : Q) : 0 <= x -> 0 <= round_pos x.
Proof.
  intros Hx. unfold round_pos.
  set (e := Z.max (floor_log2 x - 52) (-1074)).
  apply Qmult_le_0_compat; [|apply Qlt_le_weak, pow2_pos].
  change 0 with (inject_Z 0). rewrite <- Zle_Qle.
  rewrite <- (round_half_even_int 0). apply round_half_even_mono.
  apply Qle_shift_div_l; [apply pow2_pos|]. change (inject_Z 0) with 0. lra.
Qed.

Lemma round_pos_mantissa_upper (x : Q) :
  0 < x ->
  (round_half_even (x / 2 ^ Z.max (floor_log2 x - 52) (-1074)) <= 2 ^ 53)%Z.
Proof.
  intros Hx. destruct (floor_log2_spec x Hx) as [_ Hhi].
  set (e := Z.max (floor_log2 x - 52) (-1074)).
  rewrite <- (round_half_even_int (2 ^ 53)). apply round_half_even_mono.
  apply Qle_shift_div_r; [apply pow2_pos|].
  rewrite pow2_inject by lia. rewrite <- pow2_plus.
  apply Qlt_le_weak. eapply Qlt_le_trans; [exact Hhi|]. apply pow2_le. lia.
Qed.

Lemma round_pos_mantissa_lower (x : Q) :
  0 < x -> (-1074 <= floor_log2 x - 52)%Z ->
  (2 ^ 52 <= round_half_even (x / 2 ^ Z.max (floor_log2 x - 52) (-1074)))%Z.
Proof.
  intros Hx He. destruct (floor_log2_spec x Hx) as [Hlo _].
  rewrite Z.max_l by exact He.
  rewrite <- (round_half_even_int (2 ^ 52)) at 1. apply round_half_even_mono.
  apply Qle_shift_div_l; [apply pow2_pos|].
  rewrite pow2_inject by lia. rewrite <- pow2_plus.
  eapply Qle_trans; [|exact Hlo]. apply pow2_le. lia.
Qed.

Lemma round_pos_mono (x y : Q) : 0 < x -> x <= y -> round_pos x <= round_pos y.
Proof.
  intros Hx Hxy.
  assert (Hy : 0 < y) by (eapply Qlt_le_trans; eassumption).
  pose proof (floor_log2_mono x y Hx Hxy) as HE.
  pose proof (round_pos_mantissa_upper x Hx) as Hmx.
  unfold round_pos.
  set (ex := Z.max (floor_log2 x - 52) (-1074)) in *.
  set (ey := Z.max (floor_log2 y - 52) (-1074)) in *.
  assert (Hee : (ex <= ey)%Z) by (unfold ex, ey; lia).
  destruct (Z.eq_dec ex ey) as [E|E].
  - rewrite <- E. apply Qmult_le_compat_r; [|apply Qlt_le_weak, pow2_pos].
    rewrite <- Zle_Qle. apply round_half_even_mono.
    apply Qmult_le_compat_r; [exact Hxy|].
    apply Qlt_le_weak, Qinv_lt_0_compat, pow2_pos.
  - assert (Hey : (-1074 <= floor_log2 y - 52)%Z) by (unfold ex, ey in *; lia).
    pose proof (round_pos_mantissa_lower y Hy Hey) as Hmy. fold ey in Hmy.
    rewrite Zle_Qle in Hmx, Hmy.
    rewrite pow2_inject in Hmx, Hmy by lia.
    pose proof (pow2_pos ex) as Hpx. pose proof (pow2_pos ey) as Hpy.
    apply Qle_trans with (2 ^ 53 * 2 ^ ex).
    { apply Qmult_le_compat_r; [exact Hmx|now apply Qlt_le_weak]. }
    apply Qle_trans with (2 ^ 52 * 2 ^ ey).
    { rewrite <- !pow2_plus. apply pow2_le. lia. }
    apply Qmult_le_compat_r; [exact Hmy|now apply Qlt_le_weak].
Qed.

Lemma binary64_nonneg (x : Q) : 0 <= x -> 0 <= binary64 x.
Proof.
  intros Hx. unfold binary64. destruct (Qcompare x 0) eqn:C.
  - apply Qle_refl.
  - apply Qlt_alt in C. exfalso. lra.
  - rewrite Qred_correct. now apply round_pos_nonneg.
Qed.

Lemma binary64_nonpos (x : Q) : x <= 0 -> binary64 x <= 0.
Proof.
  intros Hx. unfold binary64. destruct (Qcompare x 0) eqn:C.
  - apply Qle_refl.
  - rewrite Qred_correct.
    assert (H : 0 <= round_pos (- x)) by (apply round_pos_nonneg; lra). lra.
  - apply Qgt_alt in C. exfalso. lra.
Qed.

Lemma binary64_mono (x y : Q) : x <= y -> binary64 x <= binary64 y.
Proof.
  intros Hxy.
  destruct (Qlt_le_dec 0 x) as [Hx|Hx].
  - assert (Hy : 0 < y) by (eapply Qlt_le_trans; eassumption).
    unfold binary64.
    assert (Cx : Qcompare x 0 = Gt) by now apply -> Qgt_alt.
    assert (Cy : Qcompare y 0 = Gt) by now apply -> Qgt_alt.
    rewrite Cx, Cy, !Qred_correct. now apply round_pos_mono.
  - destruct (Qlt_le_dec y 0) as [Hy|Hy].
    + assert (Hx' : x < 0) by (apply (Qle_lt_trans _ y); assumption).
      unfold binary64.
      assert (Cx : Qcompare x 0 = Lt) by now apply -> Qlt_alt.
      assert (Cy : Qcompare y 0 = Lt) by now apply -> Qlt_alt.
      rewrite Cx, Cy, !Qred_correct.
      assert (H : round_pos (- y) <= round_pos (- x)) by (apply round_pos_mono; lra).
      lra.
    + eapply Qle_trans; [apply binary64_nonpos, Hx|apply binary64_nonneg, Hy].
Qed.

(** Rounding to two places and capping. *)

Lemma py_round_unfold (q : Q) (ndigits : nat) :
  py_round q ndigits
  = binary64
      (Qmake (round_half_even (q * inject_Z (Zpos (Z.to_pos (10 ^ Z.of_nat ndigits)))))
         (Z.to_pos (10 ^ Z.of_nat ndigits))).
Proof. reflexivity. Qed.

Lemma py_round_2 (q : Q) : py_round q 2 = binary64 (Qmake (round_half_even (q * 100)) 100).
Proof. reflexivity. Qed.

Lemma Qmake_nonneg (z : Z) (d : positive) : (0 <= z)%Z -> 0 <= Qmake z d.
Proof. intros H. unfold Qle. simpl. lia. Qed.

Lemma Qmake_mono (z z' : Z) (d : positive) : (z <= z')%Z -> Qmake z d <= Qmake z' d.
Proof. intros H. unfold Qle. simpl. apply Z.mul_le_mono_nonneg_r; lia. Qed.

Lemma py_round_mono (q q' : Q) (ndigits : nat) :
  q <= q' -> py_round q ndigits <= py_round q' ndigits.
Proof.
  intros Hle. rewrite !py_round_unfold.
  set (p := Z.to_pos (10 ^ Z.of_nat ndigits)).
  apply binary64_mono, Qmake_mono, round_half_even_mono.
  apply Qmult_le_compat_r; [exact Hle|]. unfold Qle. simpl. lia.
Qed.

Lemma py_round_nonneg (q : Q) (ndigits : nat) : 0 <= q -> 0 <= py_round q ndigits.
Proof.
  intros Hq. rewrite py_round_unfold.
  apply binary64_nonneg, Qmake_nonneg, round_half_even_nonneg.
  apply Qmult_le_0_compat; [exact Hq|]. unfold Qle. simpl. lia.
Qed.

Lemma cap_score_range (s : Q) : 0 <= s -> 0 <= cap_score s <= 100.
Proof.
  intros Hs. unfold cap_score. split; [|apply py_min_le_right].
  apply py_min_lower; [|discriminate]. now apply py_round_nonneg.
Qed.

Lemma cap_score_hundredths (s : Q) : exists k : Z, cap_score s == binary64 (Qmake k 100).
Proof.
  unfold cap_score, py_min. destruct (Qltb _ _).
  - exists 10000%Z. vm_compute. reflexivity.
  - rewrite py_round_2. eexists. reflexivity.
Qed.

Lemma py_min_le_left (a b : Q) : py_min a b <= a.
Proof.
  unfold py_min. destruct (Qltb b a) eqn:E.
  - apply Qltb_lt in E. now apply Qlt_le_weak.
  - apply Qle_refl.
Qed.

Lemma py_min_mono (a a' b : Q) : a <= a' -> py_min a b <= py_min a' b.
Proof.
  intros Hle. unfold py_min.
  destruct (Qltb b a) eqn:E; destruct (Qltb b a') eqn:E'.
  - apply Qle_refl.
  - apply Qltb_lt in E. apply Qltb_ge in E'. lra.
  - apply Qltb_ge in E. exact E.
  - exact Hle.
Qed.

Lemma cap_score_mono (s s' : Q) : s <= s' -> cap_score s <= cap_score s'.
Proof. intros H. unfold cap_score. now apply py_min_mono, py_round_mono. Qed.

(** The composite score. *)

Lemma fadd_mono (x x' y y' : Q) : x <= x' -> y <= y' -> fadd x y <= fadd x' y'.
Proof. intros Hx Hy. unfold fadd. apply binary64_mono. lra. Qed.

Lemma fmul_mono (c x x' : Q) : 0 <= c -> x <= x' -> fmul c x <= fmul c x'.
Proof.
  intros Hc Hx. unfold fmul. apply binary64_mono.
  rewrite !(Qmult_comm c). now apply Qmult_le_compat_r.
Qed.

Lemma composite_score_mono (ts ts' a a' : Q) (d d' : bool) (bonus bonus' : Z) :
  ts <= ts' -> a <= a' -> (d = true -> d' = true) -> (bonus <= bonus')%Z ->
  composite_score ts a d bonus <= composite_score ts' a' d' bonus'.
Proof.
  intros Ht Ha Hd Hb. unfold composite_score.
  apply fadd_mono; [|now rewrite <- Zle_Qle].
  apply fadd_mono.
  - apply fadd_mono; apply fmul_mono; try assumption; vm_compute; discriminate.
  - destruct d, d'; try apply Qle_refl; try discriminate.
    specialize (Hd eq_refl). discriminate.
Qed.

Lemma composite_score_nonneg (ts ascore : Q) (d : bool) (bonus : Z) :
  0 <= ts -> 0 <= ascore -> (0 <= bonus)%Z -> 0 <= composite_score ts ascore d bonus.
Proof.
  intros Ht Ha Hb.
  apply Qle_trans with (composite_score 0 0 false 0).
  - vm_compute. discriminate.
  - apply composite_score_mono; try assumption. discriminate.
Qed.

End NumberFacts.

(** From here on the arithmetic is used through the lemmas above. *)
Opaque binary64 composite_score.

(** ** The verification engine *)

Section EngineFacts.

Local Open Scope Q_scope.

Variable partial_ratio : string -> string -> Q.
Variable token_set_ratio : string -> string -> Q.
Variable requests_get : request -> result response.

(** [rapidfuzz] returns similarities between 0 and 100. *)
Hypothesis partial_ratio_range : forall a b, 0 <= partial_ratio a b <= 100.
Hypothesis token_set_ratio_range : forall a b, 0 <= token_set_ratio a b <= 100.

Local Abbreviation author_score := (author_name_score partial_ratio).
Local Abbreviation scores := (candidate_scores partial_ratio token_set_ratio).
Local Abbreviation verify := (verify_publication partial_ratio token_set_ratio requests_get).
Local Abbreviation choose := (select partial_ratio token_set_ratio).
Local Abbreviation candidates := (pool requests_get).

(** *** Indexing into the normalized name *)

Lemma last_item_ok {A : Type} (l : list A) : l <> [] -> exists x, last_item l = Ok x.
Proof.
  intros Hl. unfold last_item. destruct (rev l) as [|x r] eqn:E.
  - exfalso. apply Hl. apply (f_equal (@rev A)) in E.
    now rewrite rev_involutive in E.
  - now exists x.
Qed.

Lemma split_normalize_nonempty (text : option string) :
  normalize text <> ""%string -> Py.split (normalize text) <> [].
Proof.
  destruct text as [t|]; [|intros H; now contradiction H].
  rewrite normalize_some. intros Hne Hsplit.
  rewrite (split_join settled) in Hsplit by apply normalize_words.
  rewrite Hsplit in Hne. now apply Hne.
Qed.

Lemma last_name_fails (text : option string) :
  normalize text = ""%string -> last_name text = Raise IndexError.
Proof. intros H. unfold last_name. now rewrite H. Qed.

Lemma last_name_ok (text : option string) :
  normalize text <> ""%string -> exists last, last_name text = Ok last.
Proof. intros H. apply last_item_ok, split_normalize_nonempty, H. Qed.

Lemma first_char_ok (s : string) : s <> ""%string -> exists c, first_char s = Ok c.
Proof. destruct s as [|c s]; [congruence|]. intros _. now exists c. Qed.

Lemma author_score_fails (full_name : option string) (authors : list string) :
  normalize full_name = ""%string -> author_score full_name authors = Raise IndexError.
Proof.
  intros H. unfold author_name_score. now rewrite (last_name_fails _ H).
Qed.

Lemma author_score_ok (full_name : option string) :
  normalize full_name <> ""%string ->
  exists last initial,
    last_name full_name = Ok last
    /\ first_char (normalize full_name) = Ok initial
    /\ forall authors,
         author_score full_name authors
         = Ok (match flat_map (variant_scores partial_ratio (normalize full_name) last initial)
                       authors with
               | [] => 0
               | s :: ss => py_max s ss
               end).
Proof.
  intros H.
  destruct (last_name_ok _ H) as [last Hl].
  destruct (first_char_ok _ H) as [initial Hi].
  exists last, initial. repeat split; [exact Hl|exact Hi|].
  intros authors. unfold author_name_score. now rewrite Hl, Hi.
Qed.

Lemma variant_scores_range (full last : string) (initial : ascii) (authors : list string) (v : Q) :
  In v (flat_map (variant_scores partial_ratio full last initial) authors) ->
  0 <= v <= 100.
Proof.
  intros Hv. apply in_flat_map in Hv as (a & _ & Hv).
  unfold variant_scores in Hv. simpl in Hv.
  destruct Hv as [<-|[<-|[<-|[]]]]; apply partial_ratio_range.
Qed.

Lemma author_score_range (full_name : option string) (authors : list string) (a : Q) :
  author_score full_name authors = Ok a -> 0 <= a <= 100.
Proof.
  intros Ha.
  destruct (string_dec (normalize full_name) "") as [E|E].
  - now rewrite (author_score_fails _ _ E) in Ha.
  - destruct (author_score_ok _ E) as (last & initial & _ & _ & Hall).
    rewrite Hall in Ha. inversion Ha as [Ha']. clear Ha Ha'.
    destruct (flat_map _ authors) as [|s ss] eqn:Es.
    + split; discriminate.
    + apply (variant_scores_range (normalize full_name) last initial authors).
      rewrite Es. apply py_max_in.
Qed.

(** *** The identity bonus *)

Lemma id_bonus_range (orcid scopus_id researcher_id : option string) (hit : option Candidate.t) :
  (0 <= id_bonus orcid scopus_id researcher_id hit <= 25)%Z.
Proof.
  unfold id_bonus.
  destruct orcid as [o|], hit as [h|];
    repeat match goal with
           | |- context [if ?b then _ else _] => destruct b
           end; cbn; lia.
Qed.

(** *** Scoring one candidate *)

Section OnePublication.

Variable pub : Pub.t.
Variable author_name : string.
Variables orcid scopus_id researcher_id : option string.

Local Abbreviation scores1 := (scores pub author_name orcid scopus_id researcher_id).
Local Abbreviation choose1 := (choose pub author_name orcid scopus_id researcher_id).
Local Abbreviation verify1 := (verify pub author_name orcid scopus_id researcher_id).

Lemma scores_fail (c : Candidate.t) :
  normalize (Some author_name) = ""%string -> scores1 c = Raise IndexError.
Proof.
  intros H. unfold candidate_scores. now rewrite (author_score_fails _ _ H).
Qed.

Lemma scores_ok (c : Candidate.t) :
  normalize (Some author_name) <> ""%string -> exists a s, scores1 c = Ok (a, s).
Proof.
  intros H. destruct (author_score_ok _ H) as (last & initial & _ & _ & Hall).
  unfold candidate_scores. rewrite Hall. simpl. eauto.
Qed.

Lemma scores_range (c : Candidate.t) (a s : Q) :
  scores1 c = Ok (a, s) -> 0 <= a <= 100 /\ 0 <= s.
Proof.
  unfold candidate_scores.
  destruct (author_score (Some author_name) (Candidate.authors c)) as [a'|e] eqn:Ea;
    cbn [bind]; [|discriminate].
  intros H.
  pose proof (f_equal (fun r => match r with Ok p => fst p | Raise _ => 0 end) H) as Ha.
  pose proof (f_equal (fun r => match r with Ok p => snd p | Raise _ => 0 end) H) as Hs.
  cbn [fst snd] in Ha, Hs. subst a s. clear H.
  pose proof (author_score_range _ _ _ Ea) as Hr. split; [exact Hr|].
  apply composite_score_nonneg.
  - apply token_set_ratio_range.
  - apply Hr.
  - apply id_bonus_range.
Qed.

Lemma consider_scores (st : selection) (c : Candidate.t) :
  consider partial_ratio token_set_ratio pub author_name orcid scopus_id researcher_id st c
  = (p <- scores1 c ;;
     Ok (if Qltb (best_score st) (snd p) then chosen c (fst p) (snd p) else st)).
Proof.
  unfold consider, candidate_scores.
  destruct (author_score (Some author_name) (Candidate.authors c));
    cbn [bind fst snd chosen]; reflexivity.
Qed.

(** *** The candidate loop *)

Lemma select_total (cs : list Candidate.t) (st : selection) :
  normalize (Some author_name) <> ""%string -> exists st', choose1 st cs = Ok st'.
Proof.
  intros H. revert st. induction cs as [|c cs IH]; intros st; simpl.
  - now exists st.
  - rewrite consider_scores. destruct (scores_ok c H) as (a & s & ->). simpl. apply IH.
Qed.

Lemma select_fails (c : Candidate.t) (cs : list Candidate.t) (st : selection) :
  normalize (Some author_name) = ""%string -> choose1 st (c :: cs) = Raise IndexError.
Proof.
  intros H. simpl. rewrite consider_scores. now rewrite (scores_fail c H).
Qed.

Lemma select_spec (cs : list Candidate.t) :
  forall st st', choose1 st cs = Ok st' ->
    (forall c, In c cs -> exists a s, scores1 c = Ok (a, s) /\ s <= best_score st')
    /\ (st' = st
        \/ exists i b a s,
             nth_error cs i = Some b /\ scores1 b = Ok (a, s) /\ st' = chosen b a s
             /\ best_score st < s
             /\ forall j c a' s',
                  (j < i)%nat -> nth_error cs j = Some c -> scores1 c = Ok (a', s') -> s' < s)
    /\ best_score st <= best_score st'.
Proof.
  induction cs as [|c cs IH]; intros st st' H.
  - simpl in H. inversion H; subst.
    split; [intros c []|]. split; [now left|apply Qle_refl].
  - simpl in H. rewrite consider_scores in H.
    destruct (scores1 c) as [[a s]|e] eqn:Ec; simpl in H; [|discriminate].
    destruct (Qltb (best_score st) s) eqn:Elt.
    + apply Qltb_lt in Elt. apply IH in H as (Hall & Hsel & Hle). simpl in Hle.
      split; [|split].
      * intros c' [<-|Hin]; [|now apply Hall]. now exists a, s.
      * right. destruct Hsel as [->|(i & b & a' & s' & Hn & Hb & -> & Hlt & Hprev)].
        -- exists 0%nat, c, a, s. repeat split; try assumption. intros; lia.
        -- simpl in Hlt. exists (S i), b, a', s'. repeat split; try assumption.
           ++ eapply Qlt_trans; eassumption.
           ++ intros [|j] c0 a0 s0 Hj Hn0 Hs0; simpl in Hn0.
              ** inversion Hn0; subst. rewrite Ec in Hs0. now inversion Hs0; subst.
              ** apply (Hprev j c0 a0 s0); [lia|assumption|assumption].
      * eapply Qle_trans; [apply Qlt_le_weak, Elt|exact Hle].
    + apply Qltb_ge in Elt. apply IH in H as (Hall & Hsel & Hle).
      split; [|split].
      * intros c' [<-|Hin]; [|now apply Hall]. exists a, s. split; [exact Ec|].
        eapply Qle_trans; eassumption.
      * destruct Hsel as [->|(i & b & a' & s' & Hn & Hb & -> & Hlt & Hprev)]; [now left|].
        right. exists (S i), b, a', s'. repeat split; try assumption.
        intros [|j] c0 a0 s0 Hj Hn0 Hs0; simpl in Hn0.
        -- inversion Hn0; subst. rewrite Ec in Hs0. inversion Hs0; subst.
           eapply Qle_lt_trans; eassumption.
        -- apply (Hprev j c0 a0 s0); [lia|assumption|assumption].
      * exact Hle.
Qed.

(** From the initial state a non-empty pool always selects a candidate:
    the first one whose score is greatest. *)
Lemma select_from_init (cs : list Candidate.t) (st : selection) :
  cs <> [] -> choose1 selection_init cs = Ok st ->
  exists i b a s,
    nth_error cs i = Some b /\ scores1 b = Ok (a, s) /\ st = chosen b a s
    /\ forall j c a' s',
         nth_error cs j = Some c -> scores1 c = Ok (a', s') ->
         s' <= s /\ ((j < i)%nat -> s' < s).
Proof.
  intros Hne H. apply select_spec in H as (Hall & Hsel & _).
  destruct Hsel as [->|(i & b & a & s & Hn & Hb & -> & _ & Hprev)].
  - exfalso. destruct cs as [|c0 cs']; [congruence|].
    destruct (Hall c0 (or_introl eq_refl)) as (a & s & Hs & Hle).
    apply scores_range in Hs as [_ Hs]. simpl in Hle.
    pose proof (Qle_trans _ _ _ Hs Hle) as Habs. now apply Habs.
  - exists i, b, a, s. repeat split; try assumption.
    + destruct (Hall c (nth_error_In _ _ H)) as (a'' & s'' & Hs'' & Hle).
      rewrite H0 in Hs''. inversion Hs''; subst. exact Hle.
    + intros Hj. now apply (Hprev j c a' s').
Qed.

Lemma verify_unfold :
  verify1
  = match candidates (Pub.title pub) with
    | [] =>
        Ok (build_result pub None 85 "SCHOLAR-CLAIMED OUTPUT"
              "No external bibliographic record found"
              (verification_strength orcid false))
    | _ :: _ =>
        st <- choose1 selection_init (candidates (Pub.title pub)) ;;
        Ok (build_result pub (best st) (cap_score (best_score st))
              (if Qle_bool 85 (best_author_score st) then "AUTHENTIC"
               else if Qle_bool 75 (best_score st) then "LIKELY AUTHENTIC"
               else if Qle_bool 60 (best_score st) then "SCHOLAR-CLAIMED OUTPUT"
               else "LIKELY MISATTRIBUTED")
              "Automated bibliographic verification"
              (verification_strength orcid (best_doi st)))
    end.
Proof. reflexivity. Qed.

Lemma verify_total :
  normalize (Some author_name) <> ""%string -> exists r, verify1 = Ok r.
Proof.
  intros Hname. rewrite verify_unfold.
  destruct (candidates (Pub.title pub)) as [|c cs]; [eauto|].
  destruct (select_total (c :: cs) selection_init Hname) as [st ->]. simpl. eauto.
Qed.

(** With a name that normalizes to a non-empty string, a non-empty pool
    always produces the result built from the first candidate of
    greatest composite score. *)
Lemma verify_nonempty :
  normalize (Some author_name) <> ""%string ->
  candidates (Pub.title pub) <> [] ->
  exists i b a s,
    nth_error (candidates (Pub.title pub)) i = Some b
    /\ scores1 b = Ok (a, s)
    /\ choose1 selection_init (candidates (Pub.title pub)) = Ok (chosen b a s)
    /\ (forall j c a' s',
          nth_error (candidates (Pub.title pub)) j = Some c ->
          scores1 c = Ok (a', s') ->
          s' <= s /\ ((j < i)%nat -> s' < s))
    /\ verify1
       = Ok (build_result pub (Some b) (cap_score s)
               (if Qle_bool 85 a then "AUTHENTIC"
                else if Qle_bool 75 s then "LIKELY AUTHENTIC"
                else if Qle_bool 60 s then "SCHOLAR-CLAIMED OUTPUT"
                else "LIKELY MISATTRIBUTED")
               "Automated bibliographic verification"
               (verification_strength orcid (Py.truthy (Candidate.doi b)))).
Proof.
  intros Hname Hpool.
  destruct (select_total (candidates (Pub.title pub)) selection_init Hname) as [st Hst].
  destruct (select_from_init _ _ Hpool Hst) as (i & b & a & s & Hn & Hb & -> & Hmax).
  exists i, b, a, s. repeat split; try assumption.
  - now apply (Hmax j c a' s').
  - now apply (Hmax j c a' s').
  - rewrite verify_unfold. destruct (candidates (Pub.title pub)); [congruence|].
    now rewrite Hst.
Qed.

Lemma Qle_bool_false (x y : Q) : y < x -> Qle_bool x y = false.
Proof.
  intros H. destruct (Qle_bool x y) eqn:E; [|reflexivity].
  apply Qle_bool_iff in E. exfalso. exact (Qlt_not_le _ _ H E).
Qed.

Lemma Qle_bool_true (x y : Q) : x <= y -> Qle_bool x y = true.
Proof. apply Qle_bool_iff. Qed.

(** C1. For a non-empty candidate pool the label of the selected best
    candidate follows the ordered rules: author score at least 85 gives
    AUTHENTIC whatever the composite score; otherwise composite score at
    least 75 gives LIKELY AUTHENTIC; otherwise at least 60 gives
    SCHOLAR-CLAIMED OUTPUT; otherwise LIKELY MISATTRIBUTED. *)
Theorem classification_follows_ordered_rules :
  normalize (Some author_name) <> ""%string ->
  candidates (Pub.title pub) <> [] ->
  exists b a s r,
    In b (candidates (Pub.title pub))
    /\ scores1 b = Ok (a, s)
    /\ choose1 selection_init (candidates (Pub.title pub)) = Ok (chosen b a s)
    /\ verify1 = Ok r
    /\ (85 <= a -> Verification.classification r = "AUTHENTIC"%string)
    /\ (a < 85 -> 75 <= s -> Verification.classification r = "LIKELY AUTHENTIC"%string)
    /\ (a < 85 -> s < 75 -> 60 <= s ->
        Verification.classification r = "SCHOLAR-CLAIMED OUTPUT"%string)
    /\ (a < 85 -> s < 75 -> s < 60 ->
        Verification.classification r = "LIKELY MISATTRIBUTED"%string).
Proof.
  intros Hname Hpool.
  destruct (verify_nonempty Hname Hpool) as (i & b & a & s & Hn & Hb & Hsel & _ & Hv).
  exists b, a, s. eexists. split; [eapply nth_error_In; exact Hn|].
  split; [exact Hb|]. split; [exact Hsel|]. split; [exact Hv|].
  cbn [build_result Verification.classification].
  repeat split.
  - intros Ha. now rewrite (Qle_bool_true _ _ Ha).
  - intros Ha Hs. now rewrite (Qle_bool_false _ _ Ha), (Qle_bool_true _ _ Hs).
  - intros Ha Hs Hs'.
    now rewrite (Qle_bool_false _ _ Ha), (Qle_bool_false _ _ Hs), (Qle_bool_true _ _ Hs').
  - intros Ha Hs Hs'.
    now rewrite (Qle_bool_false _ _ Ha), (Qle_bool_false _ _ Hs), (Qle_bool_false _ _ Hs').
Qed.

(** C2. [verify_publication] produces a result whenever the author name
    normalizes to a non-empty string, and every result it produces has a
    confidence score between 0 and 100 that is the float nearest to a
    number of hundredths. For an empty pool the score is 85. For a
    non-empty pool it is the composite score [s] of the selected
    candidate, rounded and clamped: with [k] an integer nearest to
    [100 s], it is the float nearest to [k / 100], or 100 when that
    float exceeds 100. *)
Theorem confidence_score_bounded_and_rounded :
  (normalize (Some author_name) <> ""%string -> exists r, verify1 = Ok r)
  /\ forall r : Verification.t,
       verify1 = Ok r ->
       0 <= Verification.confidence_score r <= 100
       /\ (exists k : Z, Verification.confidence_score r == binary64 (Qmake k 100))
       /\ (candidates (Pub.title pub) = [] -> Verification.confidence_score r = 85)
       /\ (candidates (Pub.title pub) <> [] ->
           exists b a s k,
             In b (candidates (Pub.title pub))
             /\ scores1 b = Ok (a, s)
             /\ choose1 selection_init (candidates (Pub.title pub)) = Ok (chosen b a s)
             /\ - (1 # 2) <= s * 100 - inject_Z k <= 1 # 2
             /\ ((binary64 (Qmake k 100) <= 100
                  /\ Verification.confidence_score r = binary64 (Qmake k 100))
                 \/ (100 < binary64 (Qmake k 100)
                     /\ Verification.confidence_score r = 100))).
Proof.
  split; [exact verify_total|]. intros r.
  rewrite verify_unfold.
  destruct (candidates (Pub.title pub)) as [|c cs] eqn:Epool.
  - intros H. inversion H; subst. cbn.
    split; [split; discriminate|]. split; [exists 8500%Z; vm_compute; reflexivity|].
    split; [reflexivity|]. intros Hne. now contradiction Hne.
  - destruct (choose1 selection_init (c :: cs)) as [st|e] eqn:Est; simpl; [|discriminate].
    intros H. inversion H; subst. cbn [build_result Verification.confidence_score].
    assert (Hne : c :: cs <> []) by discriminate.
    destruct (select_from_init _ _ Hne Est) as (i & b & a & s & Hn & Hb & -> & _).
    cbn [chosen best_score].
    pose proof (scores_range _ _ _ Hb) as [_ Hs].
    split; [now apply cap_score_range|]. split; [apply cap_score_hundredths|].
    split; [discriminate|]. intros _.
    exists b, a, s, (round_half_even (s * 100)).
    split; [exact (nth_error_In _ _ Hn)|]. split; [exact Hb|]. split; [reflexivity|].
    split; [apply round_half_even_near|].
    unfold cap_score, py_min. rewrite py_round_2.
    destruct (Qltb 100 (binary64 (Qmake (round_half_even (s * 100)) 100))) eqn:E.
    + right. apply Qltb_lt in E. now split.
    + left. apply Qltb_ge in E. now split.
Qed.

(** C3. With an empty candidate pool the result has score 85, label
    SCHOLAR-CLAIMED OUTPUT, the reason "No external bibliographic record
    found" and the strength computed with no DOI, whatever identifiers
    and author name are given. *)
Theorem empty_pool_result :
  (crossref_lookup requests_get (Pub.title pub)
   ++ semantic_lookup requests_get (Pub.title pub))%list = [] ->
  verify1
  = Ok {| Verification.claimed_title := Pub.title pub;
          Verification.matched_title := "";
          Verification.matched_source := "Google Scholar only";
          Verification.doi := Some ""%string;
          Verification.confidence_score := 85;
          Verification.classification := "SCHOLAR-CLAIMED OUTPUT";
          Verification.verification_strength := verification_strength orcid false;
          Verification.reason := "No external bibliographic record found" |}
  /\ verification_strength orcid false = "Basic (Scholar-only)"%string.
Proof.
  intros Hpool. split.
  - rewrite verify_unfold. unfold pool. now rewrite Hpool.
  - unfold verification_strength. now rewrite andb_false_r.
Qed.

(** C5. For a non-empty pool, Crossref's candidates first and Semantic
    Scholar's after them, the result is built from the candidate at the
    first position whose composite score is greatest: no candidate has a
    greater score and every earlier one has a strictly smaller score. *)
Theorem best_is_first_of_greatest_score :
  normalize (Some author_name) <> ""%string ->
  (crossref_lookup requests_get (Pub.title pub)
   ++ semantic_lookup requests_get (Pub.title pub))%list <> [] ->
  exists i b a s r,
    nth_error (crossref_lookup requests_get (Pub.title pub)
               ++ semantic_lookup requests_get (Pub.title pub))%list i = Some b
    /\ scores1 b = Ok (a, s)
    /\ choose1 selection_init
         (crossref_lookup requests_get (Pub.title pub)
          ++ semantic_lookup requests_get (Pub.title pub))%list
       = Ok {| best := Some b; best_score := s; best_author_score := a;
               best_doi := Py.truthy (Candidate.doi b) |}
    /\ verify1 = Ok r
    /\ Verification.matched_title r = Candidate.title b
    /\ Verification.matched_source r = Candidate.source b
    /\ Verification.doi r = Candidate.doi b
    /\ Verification.confidence_score r = cap_score s
    /\ forall j c,
         nth_error (crossref_lookup requests_get (Pub.title pub)
                    ++ semantic_lookup requests_get (Pub.title pub))%list j = Some c ->
         exists a' s',
           scores1 c = Ok (a', s') /\ s' <= s /\ ((j < i)%nat -> s' < s).
Proof.
  intros Hname Hpool.
  destruct (verify_nonempty Hname Hpool) as (i & b & a & s & Hn & Hb & Hsel & Hmax & Hv).
  exists i, b, a, s. eexists.
  split; [exact Hn|]. split; [exact Hb|]. split; [exact Hsel|]. split; [exact Hv|].
  cbn [build_result Verification.matched_title Verification.matched_source
       Verification.doi Verification.confidence_score].
  repeat split.
  intros j c Hc. destruct (scores_ok c Hname) as (a' & s' & Hs').
  exists a', s'. split; [exact Hs'|]. exact (Hmax j c a' s' Hc Hs').
Qed.

End OnePublication.

Lemma truthy_some (o : string) : Py.truthy (Some o) = true <-> o <> ""%string.
Proof. destruct o; simpl; split; congruence. Qed.

(** C4. [id_bonus] is 15 exactly when the claimed ORCID is non-empty and
    occurs in the candidate's ORCID set (else 0), plus 5 when a Scopus ID
    was supplied, plus 5 when a Researcher ID was supplied; the value lies
    between 0 and 25. *)
Theorem id_bonus_rule (orcid scopus_id researcher_id : option string)
    (hit : option Candidate.t) :
  exists credit : Z,
    ((credit = 15%Z /\ orcid_confirmed orcid hit)
     \/ (credit = 0%Z /\ ~ orcid_confirmed orcid hit))
    /\ id_bonus orcid scopus_id researcher_id hit
       = (credit + (if Py.truthy scopus_id then 5 else 0)
                 + (if Py.truthy researcher_id then 5 else 0))%Z
    /\ (0 <= id_bonus orcid scopus_id researcher_id hit <= 25)%Z.
Proof.
  assert (Hcase :
            exists credit : Z,
              ((credit = 15%Z /\ orcid_confirmed orcid hit)
               \/ (credit = 0%Z /\ ~ orcid_confirmed orcid hit))
              /\ match orcid, hit with
                 | Some o, Some h =>
                     if Py.truthy orcid
                        && existsb (String.eqb o) (get (Candidate.orcid h) [])
                     then (0 + 15)%Z else 0%Z
                 | _, _ => 0%Z
                 end = credit).
  { destruct orcid as [o|], hit as [h|].
    - destruct (Py.truthy (Some o) && existsb (String.eqb o) (get (Candidate.orcid h) []))
        eqn:E.
      + exists 15%Z. split; [left|reflexivity]. split; [reflexivity|].
        apply andb_true_iff in E as [Ht Hin]. apply truthy_some in Ht.
        apply existsb_exists in Hin as (x & Hx & Hox).
        apply String.eqb_eq in Hox. subst x. now exists o, h.
      + exists 0%Z. split; [right|reflexivity]. split; [reflexivity|].
        intros (o' & h' & Ho & Hne & Hh & Hin).
        inversion Ho; subst o'. inversion Hh; subst h'.
        apply truthy_some in Hne.
        assert (Hex : existsb (String.eqb o) (get (Candidate.orcid h) []) = true).
        { apply existsb_exists. exists o. split; [exact Hin|apply String.eqb_refl]. }
        rewrite Hne, Hex in E. discriminate.
    - exists 0%Z. split; [right|reflexivity]. split; [reflexivity|].
      intros (o' & h' & _ & _ & Hh & _). discriminate.
    - exists 0%Z. split; [right|reflexivity]. split; [reflexivity|].
      intros (o' & h' & Ho & _). discriminate.
    - exists 0%Z. split; [right|reflexivity]. split; [reflexivity|].
      intros (o' & h' & Ho & _). discriminate. }
  destruct Hcase as (credit & Hcredit & Heq).
  exists credit. split; [exact Hcredit|]. split; [|apply id_bonus_range].
  unfold id_bonus. rewrite Heq.
  destruct Hcredit as [[-> _]|[-> _]];
    destruct (Py.truthy scopus_id), (Py.truthy researcher_id); reflexivity.
Qed.

(** C9. [last_name] and [author_name_score] index into the normalized
    name without a guard: both raise [IndexError] when it is empty,
    whatever the author list. When it is non-empty the two index
    accesses succeed and [author_name_score] returns 0 for an empty
    author list and otherwise the greatest of the three variant scores
    over all authors. So [verify_publication] raises on every non-empty
    pool when the author name normalizes to the empty string. *)
Theorem name_indexing_is_unguarded :
  (forall full_name : option string,
      normalize full_name = ""%string ->
      last_name full_name = Raise IndexError
      /\ forall authors, author_score full_name authors = Raise IndexError)
  /\ (forall full_name : option string,
        normalize full_name <> ""%string ->
        exists last initial,
          last_name full_name = Ok last
          /\ first_char (normalize full_name) = Ok initial
          /\ author_score full_name [] = Ok 0
          /\ forall authors, authors <> [] ->
               exists a,
                 author_score full_name authors = Ok a
                 /\ (exists author,
                        In author authors
                        /\ In a (variant_scores partial_ratio (normalize full_name)
                                   last initial author))
                 /\ forall author v,
                      In author authors ->
                      In v (variant_scores partial_ratio (normalize full_name)
                              last initial author) ->
                      v <= a)
  /\ (forall pub author_name orcid scopus_id researcher_id,
        normalize (Some author_name) = ""%string ->
        candidates (Pub.title pub) <> [] ->
        verify pub author_name orcid scopus_id researcher_id = Raise IndexError).
Proof.
  split; [|split].
  - intros full_name H. split; [now apply last_name_fails|].
    intros authors. now apply author_score_fails.
  - intros full_name H.
    destruct (author_score_ok _ H) as (last & initial & Hl & Hi & Hall).
    exists last, initial. split; [exact Hl|]. split; [exact Hi|].
    split; [now rewrite Hall|].
    intros authors Hne. rewrite Hall.
    destruct (flat_map _ authors) as [|s ss] eqn:Es.
    + destruct authors as [|x xs]; [congruence|]. discriminate.
    + eexists. split; [reflexivity|]. split.
      * pose proof (py_max_in ss s) as Hin. rewrite <- Es in Hin.
        apply in_flat_map in Hin as (author & Hau & Hv). now exists author.
      * intros author v Hau Hv.
        assert (Hin : In v (s :: ss)).
        { rewrite <- Es. apply in_flat_map. now exists author. }
        destruct (py_max_upper ss s) as [H1 H2].
        destruct Hin as [<-|Hin]; [exact H1|now apply H2].
  - intros pub author_name orcid scopus_id researcher_id H Hpool.
    rewrite verify_unfold.
    destruct (candidates (Pub.title pub)) as [|c cs]; [congruence|].
    now rewrite (select_fails _ _ _ _ _ c cs selection_init H).
Qed.

End EngineFacts.

(** ** The adapters *)

Section AdapterFacts.

Variable requests_get : request -> result response.

Local Abbreviation crossref := (crossref_lookup requests_get).
Local Abbreviation semantic := (semantic_lookup requests_get).

Lemma for_each_Forall2 {A B : Type} (f : A -> result B) (l : list A) (l' : list B) :
  for_each f l = Ok l' <-> Forall2 (fun x y => f x = Ok y) l l'.
Proof.
  revert l'. induction l as [|x l IH]; intros l'; simpl.
  - split.
    + intros H. inversion H. constructor.
    + intros H. inversion H. reflexivity.
  - split.
    + destruct (f x) as [y|e] eqn:Ex; simpl; [|discriminate].
      destruct (for_each f l) as [ys|e] eqn:El; simpl; [|discriminate].
      intros H. inversion H; subst. constructor; [exact Ex|]. now apply IH.
    + intros H. inversion H as [|? y ? ys Hxy Hrest]; subst.
      apply IH in Hrest. now rewrite Hxy, Hrest.
Qed.

Lemma except_empty_cases {A B : Type} (f : A -> result B) (l : list A) :
  except_empty (for_each f l) = []
  \/ Forall2 (fun x y => f x = Ok y) l (except_empty (for_each f l)).
Proof.
  destruct (for_each f l) as [l'|e] eqn:E; [|now left].
  right. now apply for_each_Forall2.
Qed.

Lemma except_empty_length {A B : Type} (f : A -> result B) (l : list A) :
  (List.length (except_empty (for_each f l)) <= List.length l)%nat.
Proof.
  destruct (except_empty_cases f l) as [->|H]; [simpl; lia|].
  apply Forall2_length in H. lia.
Qed.

(** What a successful Crossref response carries. *)
Lemma crossref_lookup_cases (title : string) :
  crossref title = []
  \/ exists r items,
       requests_get (crossref_request title) = Ok r
       /\ ok r = true
       /\ json r = Ok (CrossrefDoc
                         {| Crossref.message_ := Some {| Crossref.items := Some items |} |})
       /\ crossref title = except_empty (for_each crossref_candidate items).
Proof.
  unfold crossref_lookup.
  destruct (requests_get (crossref_request title)) as [r|e] eqn:Er; [|now left].
  simpl. destruct (ok r) eqn:Eok; [|now left]. simpl.
  destruct (json r) as [[[[[[items|]]|]]|b]|e] eqn:Ej; try (now left).
  right. exists r, items. now rewrite Ej.
Qed.

Lemma semantic_lookup_cases (title : string) :
  semantic title = []
  \/ exists r papers,
       requests_get (semantic_request title) = Ok r
       /\ ok r = true
       /\ json r = Ok (SemanticDoc {| Semantic.data := Some papers |})
       /\ semantic title = except_empty (for_each semantic_candidate papers).
Proof.
  unfold semantic_lookup.
  destruct (requests_get (semantic_request title)) as [r|e] eqn:Er; [|now left].
  simpl. destruct (ok r) eqn:Eok; [|now left]. simpl.
  destruct (json r) as [[b|[[papers|]]]|e] eqn:Ej; try (now left).
  right. exists r, papers. now rewrite Ej.
Qed.

Lemma for_each_raises {A B : Type} (f : A -> result B) (l : list A) :
  Exists (fun x => exists e, f x = Raise e) l -> exists e, for_each f l = Raise e.
Proof.
  induction l as [|x l IH]; intros H; inversion H as [? ? [e He]|? ? Hl]; subst; simpl.
  - rewrite He. simpl. now exists e.
  - destruct (f x) as [y|e]; simpl; [|now exists e].
    destruct (IH Hl) as [e ->]. simpl. now exists e.
Qed.

Lemma for_each_succeeds {A B : Type} (f : A -> result B) (l : list A) :
  Forall (fun x => exists y, f x = Ok y) l -> exists l', for_each f l = Ok l'.
Proof.
  induction l as [|x l IH]; intros H; simpl; [eauto|].
  inversion H as [|? ? [y Hy] Hl]; subst.
  rewrite Hy. simpl. destruct (IH Hl) as [l' ->]. simpl. eauto.
Qed.

Lemma for_each_length {A B : Type} (f : A -> result B) (l : list A) (l' : list B) :
  for_each f l = Ok l' -> List.length l' = List.length l.
Proof.
  intros H. apply for_each_Forall2 in H. symmetry. exact (Forall2_length H).
Qed.

Lemma crossref_candidate_raises (i : Crossref.item) :
  Crossref.title i = Some [] <-> exists e, crossref_candidate i = Raise e.
Proof.
  unfold crossref_candidate. destruct (Crossref.title i) as [[|t ts]|]; simpl; split.
  - intros _. now exists IndexError.
  - reflexivity.
  - discriminate.
  - intros [e He]. discriminate.
  - discriminate.
  - intros [e He]. discriminate.
Qed.

Lemma semantic_candidate_raises (d : Semantic.paper) :
  Exists (fun a => Semantic.name a = None) (get (Semantic.authors d) [])
  <-> exists e, semantic_candidate d = Raise e.
Proof.
  unfold semantic_candidate. split.
  - intros H.
    destruct (for_each_raises (fun a => getitem (Semantic.name a))
                (get (Semantic.authors d) [])) as [e He].
    { eapply Exists_impl; [|exact H]. intros a Ha. rewrite Ha. now exists KeyError. }
    rewrite He. simpl. now exists e.
  - intros [e He].
    destruct (for_each (fun a => getitem (Semantic.name a)) (get (Semantic.authors d) []))
      as [l|e'] eqn:E; simpl in He; [discriminate|].
    clear He. induction (get (Semantic.authors d) []) as [|a l IH]; [discriminate|].
    simpl in E. destruct (Semantic.name a) as [n|] eqn:En; simpl in E.
    + right. apply IH.
      destruct (for_each (fun a => getitem (Semantic.name a)) l); simpl in E;
        [discriminate|]. congruence.
    + now left.
Qed.

Lemma crossref_candidate_record (i : Crossref.item) (c : Candidate.t) :
  crossref_candidate i = Ok c -> crossref_record i c.
Proof.
  unfold crossref_candidate, crossref_record.
  destruct (get (Crossref.title i) [""%string]) as [|t ts]; simpl; [discriminate|].
  intros H. inversion H; subst. clear H. simpl.
  repeat split. f_equal.
  induction (get (Crossref.author_ i) []) as [|a l IH]; [reflexivity|].
  simpl. destruct (Py.truthy (Crossref.ORCID a)); simpl; now rewrite IH.
Qed.

Lemma semantic_candidate_record (d : Semantic.paper) (c : Candidate.t) :
  semantic_candidate d = Ok c -> semantic_record d c.
Proof.
  unfold semantic_candidate, semantic_record.
  destruct (for_each (fun a => getitem (Semantic.name a)) (get (Semantic.authors d) []))
    as [names|e] eqn:E; simpl; [|discriminate].
  intros H. inversion H; subst. clear H. simpl.
  repeat split.
  apply for_each_Forall2 in E.
  induction E as [|a n l names Ha _ IH]; [reflexivity|].
  simpl. rewrite IH. f_equal.
  destruct (Semantic.name a); simpl in Ha; congruence.
Qed.

Lemma crossref_lookup_decoded (title : string) (r : response) (items : list Crossref.item) :
  requests_get (crossref_request title) = Ok r ->
  ok r = true ->
  json r = Ok (CrossrefDoc
                 {| Crossref.message_ := Some {| Crossref.items := Some items |} |}) ->
  crossref title = except_empty (for_each crossref_candidate items).
Proof.
  intros Hr Hok Hj. unfold crossref_lookup.
  rewrite Hr. simpl. rewrite Hok. simpl. now rewrite Hj.
Qed.

Lemma semantic_lookup_decoded (title : string) (r : response) (papers : list Semantic.paper) :
  requests_get (semantic_request title) = Ok r ->
  ok r = true ->
  json r = Ok (SemanticDoc {| Semantic.data := Some papers |}) ->
  semantic title = except_empty (for_each semantic_candidate papers).
Proof.
  intros Hr Hok Hj. unfold semantic_lookup.
  rewrite Hr. simpl. rewrite Hok. simpl. now rewrite Hj.
Qed.

(** C6 (as amended). Each adapter asks the service for 3 results. For a
    successful response whose records all decode, the lookup returns
    exactly one candidate for each record, in the order of the response,
    each built from its record; the adapter does not truncate, so the
    result holds at most [n] candidates when the response holds at most
    [n] records. A failed request, a status that is not ok, a body that
    cannot be decoded and a response with a record that cannot be
    decoded give the empty sequence. *)
Theorem lookup_follows_response (title : string) :
  (In ("rows"%string, PInt 3) (params (crossref_request title))
   /\ In ("limit"%string, PInt 3) (params (semantic_request title)))
  /\ (forall r items,
        requests_get (crossref_request title) = Ok r ->
        ok r = true ->
        json r = Ok (CrossrefDoc
                       {| Crossref.message_ := Some {| Crossref.items := Some items |} |}) ->
        (Forall (fun i => Crossref.title i <> Some []) items ->
         Forall2 crossref_record items (crossref title)
         /\ List.length (crossref title) = List.length items)
        /\ (Exists (fun i => Crossref.title i = Some []) items -> crossref title = []))
  /\ (forall r papers,
        requests_get (semantic_request title) = Ok r ->
        ok r = true ->
        json r = Ok (SemanticDoc {| Semantic.data := Some papers |}) ->
        (Forall (fun d => Forall (fun a => Semantic.name a <> None)
                            (get (Semantic.authors d) [])) papers ->
         Forall2 semantic_record papers (semantic title)
         /\ List.length (semantic title) = List.length papers)
        /\ (Exists (fun d => Exists (fun a => Semantic.name a = None)
                               (get (Semantic.authors d) [])) papers ->
            semantic title = []))
  /\ (forall n : nat,
        (forall r items,
            requests_get (crossref_request title) = Ok r ->
            json r = Ok (CrossrefDoc
                           {| Crossref.message_ :=
                                Some {| Crossref.items := Some items |} |}) ->
            (List.length items <= n)%nat) ->
        (List.length (crossref title) <= n)%nat)
  /\ (forall n : nat,
        (forall r papers,
            requests_get (semantic_request title) = Ok r ->
            json r = Ok (SemanticDoc {| Semantic.data := Some papers |}) ->
            (List.length papers <= n)%nat) ->
        (List.length (semantic title) <= n)%nat)
  /\ (forall e,
        (requests_get (crossref_request title) = Raise e -> crossref title = [])
        /\ (requests_get (semantic_request title) = Raise e -> semantic title = []))
  /\ (forall r,
        (requests_get (crossref_request title) = Ok r ->
         ok r = false \/ (exists e, json r = Raise e) -> crossref title = [])
        /\ (requests_get (semantic_request title) = Ok r ->
            ok r = false \/ (exists e, json r = Raise e) -> semantic title = [])).
Proof.
  split; [split; simpl; tauto|].
  split.
  { intros r items Hr Hok Hj.
    rewrite (crossref_lookup_decoded title r items Hr Hok Hj). split.
    - intros Hgood.
      destruct (for_each_succeeds crossref_candidate items) as [l' Hl'].
      { eapply Forall_impl; [|exact Hgood]. intros i Hi.
        destruct (crossref_candidate i) as [c|e] eqn:E; [now exists c|].
        exfalso. apply Hi. apply crossref_candidate_raises. now exists e. }
      rewrite Hl'. simpl. split; [|now apply for_each_length in Hl'].
      apply for_each_Forall2 in Hl'.
      eapply Forall2_impl; [|exact Hl']. intros i c. apply crossref_candidate_record.
    - intros Hbad.
      destruct (for_each_raises crossref_candidate items) as [e ->]; [|reflexivity].
      eapply Exists_impl; [|exact Hbad]. intros i. apply crossref_candidate_raises. }
  split.
  { intros r papers Hr Hok Hj.
    rewrite (semantic_lookup_decoded title r papers Hr Hok Hj). split.
    - intros Hgood.
      destruct (for_each_succeeds semantic_candidate papers) as [l' Hl'].
      { eapply Forall_impl; [|exact Hgood]. intros d Hd.
        destruct (semantic_candidate d) as [c|e] eqn:E; [now exists c|].
        exfalso. assert (Hex : exists e, semantic_candidate d = Raise e) by now exists e.
        apply semantic_candidate_raises in Hex.
        apply Exists_exists in Hex as (a & Ha & Hnone).
        rewrite Forall_forall in Hd. exact (Hd a Ha Hnone). }
      rewrite Hl'. simpl. split; [|now apply for_each_length in Hl'].
      apply for_each_Forall2 in Hl'.
      eapply Forall2_impl; [|exact Hl']. intros d c. apply semantic_candidate_record.
    - intros Hbad.
      destruct (for_each_raises semantic_candidate papers) as [e ->]; [|reflexivity].
      eapply Exists_impl; [|exact Hbad]. intros d. apply semantic_candidate_raises. }
  split.
  { intros n Hn.
    destruct (crossref_lookup_cases title) as [->|(r & items & Hr & Hok & Hj & ->)];
      [simpl; lia|].
    pose proof (except_empty_length crossref_candidate items).
    specialize (Hn r items Hr Hj). lia. }
  split.
  { intros n Hn.
    destruct (semantic_lookup_cases title) as [->|(r & papers & Hr & Hok & Hj & ->)];
      [simpl; lia|].
    pose proof (except_empty_length semantic_candidate papers).
    specialize (Hn r papers Hr Hj). lia. }
  split.
  { intros e. split; intros H.
    - unfold crossref_lookup. now rewrite H.
    - unfold semantic_lookup. now rewrite H. }
  intros r. split; intros H [Hok|[e He]].
  - unfold crossref_lookup. now rewrite H; simpl; rewrite Hok.
  - unfold crossref_lookup. rewrite H. simpl. destruct (ok r); [|reflexivity].
    simpl. now rewrite He.
  - unfold semantic_lookup. now rewrite H; simpl; rewrite Hok.
  - unfold semantic_lookup. rewrite H. simpl. destruct (ok r); [|reflexivity].
    simpl. now rewrite He.
Qed.

End AdapterFacts.

(** ** The report *)

Section MainFacts.

Local Open Scope Q_scope.

Variable partial_ratio : string -> string -> Q.
Variable token_set_ratio : string -> string -> Q.
Variable requests_get : request -> result response.

Local Abbreviation verify := (verify_publication partial_ratio token_set_ratio requests_get).
Local Abbreviation verify_each := (verify_all partial_ratio token_set_ratio requests_get).
Local Abbreviation run_main := (main partial_ratio token_set_ratio requests_get).

Lemma pubs_of_titled (publications : list (option string)) :
  flat_map (fun t => if Py.truthy t then [Pub.make (get t "")] else []) publications
  = map (fun t => Pub.make (get t "")) (titled publications).
Proof.
  unfold titled. induction publications as [|t l IH]; [reflexivity|].
  simpl. destruct (Py.truthy t); simpl; now rewrite IH.
Qed.









End MainFacts.

(** ** The program on concrete inputs *)

Section Instances.

Local Open Scope Q_scope.

Lemma exact_ratio_range (a b : string) : 0 <= exact_ratio a b <= 100.
Proof. unfold exact_ratio. destruct (String.eqb a b); split; discriminate. Qed.

Lemma title_table_range (a b : string) : 0 <= scripted title_table a b <= 100.
Proof.
  cbn [scripted title_table].
  repeat match goal with |- context [String.eqb b ?k] => destruct (String.eqb b k) end;
    vm_compute; split; discriminate.
Qed.

Lemma author_table_range (a b : string) : 0 <= scripted author_table a b <= 100.
Proof.
  cbn [scripted author_table].
  repeat match goal with |- context [String.eqb b ?k] => destruct (String.eqb b k) end;
    vm_compute; split; discriminate.
Qed.

(** The first scenario of the specification: exact title, matching
    author, DOI present, no identifiers. *)
Example authentic_scenario :
  verify_publication exact_ratio exact_ratio sample_web sample_pub "Jane Smith"
    None None None
  = Ok {| Verification.claimed_title := "Deep Learning for X";
          Verification.matched_title := "Deep learning for X";
          Verification.matched_source := "Crossref";
          Verification.doi := Some "10.1000/x"%string;
          Verification.confidence_score := 95;
          Verification.classification := "AUTHENTIC";
          Verification.verification_strength := "Moderate (Name + DOI)";
          Verification.reason := "Automated bibliographic verification" |}.
Proof. vm_compute. reflexivity. Qed.

(** A strong author match decides alone: the title does not match, the
    composite score is 30, the label is still AUTHENTIC. *)
Example authentic_with_low_score :
  verify_publication exact_ratio exact_ratio sample_web (Pub.make "Something else")
    "Jane Smith" None None None
  = Ok {| Verification.claimed_title := "Something else";
          Verification.matched_title := "Deep learning for X";
          Verification.matched_source := "Crossref";
          Verification.doi := Some "10.1000/x"%string;
          Verification.confidence_score := 30;
          Verification.classification := "AUTHENTIC";
          Verification.verification_strength := "Moderate (Name + DOI)";
          Verification.reason := "Automated bibliographic verification" |}.
Proof. vm_compute. reflexivity. Qed.

(** All identifiers confirmed on an exact match: 120 before the cap. *)
Example capped_scenario :
  let item :=
    {| Crossref.title := Some ["Deep Learning for X"%string];
       Crossref.author_ := Some [{| Crossref.given := Some "Jane"%string;
                                    Crossref.family := Some "Smith"%string;
                                    Crossref.ORCID := Some "0000-0001"%string |}];
       Crossref.DOI := Some "10.1000/x"%string |} in
  option_map Verification.confidence_score
    (match verify_publication exact_ratio exact_ratio (serving [item] []) sample_pub
             "Jane Smith" (Some "0000-0001"%string) (Some "57"%string) (Some "R-1"%string)
     with Ok r => Some r | Raise _ => None end)
  = Some 100.
Proof. vm_compute. reflexivity. Qed.

(** The arithmetic is that of floats: with title score 92.3076923076923
    and author score 60 the composite score is exactly 75, although
    [0.65 * ts + 0.25 * 60] is below 75 in exact arithmetic. *)
Example composite_score_is_rounded :
  composite_score near_title_score 60 false 0 = 75
  /\ (65 # 100) * near_title_score + (25 # 100) * 60 < 75
  /\ composite_score 100 40 false 0 = 75.
Proof. split; [|split]; vm_compute; reflexivity. Qed.

(** That candidate alone is therefore LIKELY AUTHENTIC, with score 75. *)
Example threshold_scenario :
  verify_publication (scripted author_table) (scripted title_table)
    (serving [crossref_hit "close" "sixty" "" None] []) sample_pub "Jane Smith"
    None None None
  = Ok {| Verification.claimed_title := "Deep Learning for X";
          Verification.matched_title := "close";
          Verification.matched_source := "Crossref";
          Verification.doi := None;
          Verification.confidence_score := 75;
          Verification.classification := "LIKELY AUTHENTIC";
          Verification.verification_strength := "Basic (Scholar-only)";
          Verification.reason := "Automated bibliographic verification" |}.
Proof. vm_compute. reflexivity. Qed.

(** Followed by a candidate with title score 100 and author score 40,
    which scores 75 as well, it is kept: the later one is not strictly
    greater. *)
Example threshold_tie_keeps_first :
  map (fun c =>
         match candidate_scores (scripted author_table) (scripted title_table)
                 sample_pub "Jane Smith" None None None c with
         | Ok (a, s) => Some (a, s)
         | Raise _ => None
         end)
    (pool threshold_web (Pub.title sample_pub))
  = [Some (60, 75); Some (40, 75)]
  /\ verify_publication (scripted author_table) (scripted title_table)
       threshold_web sample_pub "Jane Smith" None None None
     = Ok {| Verification.claimed_title := "Deep Learning for X";
             Verification.matched_title := "close";
             Verification.matched_source := "Crossref";
             Verification.doi := None;
             Verification.confidence_score := 75;
             Verification.classification := "LIKELY AUTHENTIC";
             Verification.verification_strength := "Basic (Scholar-only)";
             Verification.reason := "Automated bibliographic verification" |}.
Proof. split; vm_compute; reflexivity. Qed.

(** With author score 41.5 the composite score is 70.375, which
    [round(score, 2)] takes to the float 70.38. *)
Example halfway_scenario :
  composite_score near_title_score (83 # 2) false 0 = binary64 (70375 # 1000)
  /\ option_map Verification.confidence_score
       (match verify_publication (scripted author_table) (scripted title_table)
                halfway_web sample_pub "Jane Smith" None None None
        with Ok r => Some r | Raise _ => None end)
     = Some (binary64 (7038 # 100)).
Proof. split; vm_compute; reflexivity. Qed.

Lemma classification_follows_ordered_rules_witness :
  normalize (Some "Jane Smith"%string) <> ""%string
  /\ pool sample_web (Pub.title sample_pub) <> []
  /\ exists b a s r,
       In b (pool sample_web (Pub.title sample_pub))
       /\ candidate_scores exact_ratio exact_ratio sample_pub "Jane Smith" None None None b
          = Ok (a, s)
       /\ verify_publication exact_ratio exact_ratio sample_web sample_pub "Jane Smith"
            None None None = Ok r
       /\ (85 <= a -> Verification.classification r = "AUTHENTIC"%string).
Proof.
  assert (Hname : normalize (Some "Jane Smith"%string) <> ""%string)
    by (vm_compute; discriminate).
  assert (Hpool : pool sample_web (Pub.title sample_pub) <> [])
    by (vm_compute; discriminate).
  split; [exact Hname|]. split; [exact Hpool|].
  destruct (classification_follows_ordered_rules exact_ratio exact_ratio sample_web
              exact_ratio_range exact_ratio_range sample_pub "Jane Smith" None None None
              Hname Hpool)
    as (b & a & s & r & Hin & Hs & _ & Hr & Hrule & _).
  exists b, a, s, r. repeat split; assumption.
Defined.

Lemma confidence_score_bounded_and_rounded_witness :
  normalize (Some "Jane Smith"%string) <> ""%string
  /\ exists r,
       verify_publication (scripted author_table) (scripted title_table) halfway_web
         sample_pub "Jane Smith" None None None = Ok r
       /\ 0 <= Verification.confidence_score r <= 100
       /\ (exists k : Z, Verification.confidence_score r == binary64 (Qmake k 100))
       /\ (pool halfway_web (Pub.title sample_pub) <> [] ->
           exists b a s k,
             In b (pool halfway_web (Pub.title sample_pub))
             /\ candidate_scores (scripted author_table) (scripted title_table)
                  sample_pub "Jane Smith" None None None b = Ok (a, s)
             /\ - (1 # 2) <= s * 100 - inject_Z k <= 1 # 2
             /\ ((binary64 (Qmake k 100) <= 100
                  /\ Verification.confidence_score r = binary64 (Qmake k 100))
                 \/ (100 < binary64 (Qmake k 100)
                     /\ Verification.confidence_score r = 100))).
Proof.
  assert (Hname : normalize (Some "Jane Smith"%string) <> ""%string)
    by (vm_compute; discriminate).
  split; [exact Hname|].
  destruct (confidence_score_bounded_and_rounded (scripted author_table)
              (scripted title_table) halfway_web author_table_range title_table_range
              sample_pub "Jane Smith" None None None)
    as [Htotal Hbound].
  destruct (Htotal Hname) as [r Hr].
  exists r. split; [exact Hr|].
  destruct (Hbound r Hr) as (Hrange & Hk & _ & Hsel).
  split; [exact Hrange|]. split; [exact Hk|].
  intros Hne. destruct (Hsel Hne) as (b & a & s & k & Hin & Hs & _ & Hnear & Hconf).
  exists b, a, s, k. split; [exact Hin|]. split; [exact Hs|]. split; [exact Hnear|].
  exact Hconf.
Defined.

Lemma empty_pool_result_witness :
  (crossref_lookup offline (Pub.title sample_pub)
   ++ semantic_lookup offline (Pub.title sample_pub))%list = []
  /\ verify_publication exact_ratio exact_ratio offline sample_pub "Jane Smith"
       (Some "0000-0001"%string) None None
     = Ok {| Verification.claimed_title := "Deep Learning for X";
             Verification.matched_title := "";
             Verification.matched_source := "Google Scholar only";
             Verification.doi := Some ""%string;
             Verification.confidence_score := 85;
             Verification.classification := "SCHOLAR-CLAIMED OUTPUT";
             Verification.verification_strength := "Basic (Scholar-only)";
             Verification.reason := "No external bibliographic record found" |}.
Proof.
  split; [reflexivity|].
  apply (empty_pool_result exact_ratio exact_ratio offline sample_pub "Jane Smith"
           (Some "0000-0001"%string) None None).
  reflexivity.
Defined.

Lemma best_is_first_of_greatest_score_witness :
  normalize (Some "Jane Smith"%string) <> ""%string
  /\ (crossref_lookup sample_web (Pub.title sample_pub)
      ++ semantic_lookup sample_web (Pub.title sample_pub))%list <> []
  /\ exists i b a s r,
       nth_error (crossref_lookup sample_web (Pub.title sample_pub)
                  ++ semantic_lookup sample_web (Pub.title sample_pub))%list i = Some b
       /\ candidate_scores exact_ratio exact_ratio sample_pub "Jane Smith" None None None b
          = Ok (a, s)
       /\ verify_publication exact_ratio exact_ratio sample_web sample_pub "Jane Smith"
            None None None = Ok r
       /\ Verification.matched_source r = Candidate.source b
       /\ forall j c,
            nth_error (crossref_lookup sample_web (Pub.title sample_pub)
                       ++ semantic_lookup sample_web (Pub.title sample_pub))%list j = Some c ->
            exists a' s',
              candidate_scores exact_ratio exact_ratio sample_pub "Jane Smith"
                None None None c = Ok (a', s')
              /\ s' <= s /\ ((j < i)%nat -> s' < s).
Proof.
  assert (Hname : normalize (Some "Jane Smith"%string) <> ""%string)
    by (vm_compute; discriminate).
  assert (Hpool : (crossref_lookup sample_web (Pub.title sample_pub)
                   ++ semantic_lookup sample_web (Pub.title sample_pub))%list <> [])
    by (vm_compute; discriminate).
  split; [exact Hname|]. split; [exact Hpool|].
  destruct (best_is_first_of_greatest_score exact_ratio exact_ratio sample_web
              exact_ratio_range exact_ratio_range sample_pub "Jane Smith" None None None
              Hname Hpool)
    as (i & b & a & s & r & Hn & Hs & _ & Hr & _ & Hsrc & _ & _ & Hmax).
  exists i, b, a, s, r. repeat split; assumption.
Defined.

(** Both candidates of [sample_web] score 95; the Crossref one, met
    first, is kept. *)
Example tie_keeps_first :
  map (fun c =>
         match candidate_scores exact_ratio exact_ratio sample_pub "Jane Smith"
                 None None None c with
         | Ok (a, s) => Some (a, s)
         | Raise _ => None
         end)
    (pool sample_web (Pub.title sample_pub))
  = [Some (100, 95); Some (100, 95)]
  /\ option_map Candidate.source
       (match select exact_ratio exact_ratio sample_pub "Jane Smith" None None None
                selection_init (pool sample_web (Pub.title sample_pub))
        with Ok st => best st | Raise _ => None end)
     = Some "Crossref"%string.
Proof. split; vm_compute; reflexivity. Qed.

(** C6 (as stated) fails: a successful response with four records gives
    four candidates. *)
Lemma lookup_returns_more_than_three :
  List.length (crossref_lookup generous_web "A") = 4%nat
  /\ List.length (semantic_lookup generous_web "A") = 4%nat
  /\ ~ (List.length (crossref_lookup generous_web "A") <= 3)%nat
  /\ ~ (List.length (semantic_lookup generous_web "A") <= 3)%nat.
Proof. repeat split; try reflexivity; vm_compute; lia. Qed.

Lemma lookup_follows_response_witness :
  (Forall2 crossref_record
     [crossref_hit "Deep learning for X" "Jane" "Smith" (Some "10.1000/x"%string)]
     (crossref_lookup sample_web "Deep Learning for X")
   /\ List.length (crossref_lookup sample_web "Deep Learning for X") = 1%nat)
  /\ (Forall2 semantic_record
        [semantic_hit "Deep Learning for X." "Jane Smith" (Some "10.1000/x"%string)]
        (semantic_lookup sample_web "Deep Learning for X")
      /\ List.length (semantic_lookup sample_web "Deep Learning for X") = 1%nat)
  /\ crossref_lookup flawed_web "A" = []
  /\ semantic_lookup flawed_web "A" = []
  /\ (List.length (crossref_lookup sample_web "Deep Learning for X") <= 3)%nat
  /\ crossref_lookup offline "Deep Learning for X" = [].
Proof.
  destruct (lookup_follows_response sample_web "Deep Learning for X")
    as (_ & Hcross & Hsem & Hbound & _).
  destruct (lookup_follows_response flawed_web "A") as (_ & Hcross' & Hsem' & _).
  destruct (lookup_follows_response offline "Deep Learning for X")
    as (_ & _ & _ & _ & _ & Hraise & _).
  split; [|split; [|split; [|split; [|split]]]].
  - apply (Hcross _ _ eq_refl eq_refl eq_refl).
    repeat constructor. discriminate.
  - apply (Hsem _ _ eq_refl eq_refl eq_refl).
    repeat constructor. discriminate.
  - apply (Hcross' _ _ eq_refl eq_refl eq_refl).
    apply Exists_cons_tl, Exists_cons_hd. reflexivity.
  - apply (Hsem' _ _ eq_refl eq_refl eq_refl).
    apply Exists_cons_tl, Exists_cons_hd. apply Exists_cons_hd. reflexivity.
  - apply Hbound. intros r items Hr Hj. inversion Hr; subst r. simpl in Hj.
    inversion Hj; subst items. simpl. lia.
  - now apply (Hraise RequestException).
Defined.

Lemma name_indexing_is_unguarded_witness :
  (normalize (Some "..."%string) = ""%string
   /\ last_name (Some "..."%string) = Raise IndexError
   /\ author_name_score exact_ratio (Some "..."%string) ["Jane Smith"%string]
      = Raise IndexError)
  /\ (normalize (Some "Jane Smith"%string) <> ""%string
      /\ exists last initial,
           last_name (Some "Jane Smith"%string) = Ok last
           /\ first_char (normalize (Some "Jane Smith"%string)) = Ok initial
           /\ author_name_score exact_ratio (Some "Jane Smith"%string) [] = Ok 0)
  /\ (pool sample_web (Pub.title sample_pub) <> []
      /\ verify_publication exact_ratio exact_ratio sample_web sample_pub "..."
           None None None = Raise IndexError).
Proof.
  destruct (name_indexing_is_unguarded exact_ratio exact_ratio sample_web)
    as (Hfail & Hok & Hverify).
  assert (Hdots : normalize (Some "..."%string) = ""%string) by reflexivity.
  assert (Hname : normalize (Some "Jane Smith"%string) <> ""%string)
    by (vm_compute; discriminate).
  assert (Hpool : pool sample_web (Pub.title sample_pub) <> [])
    by (vm_compute; discriminate).
  split; [|split].
  - destruct (Hfail _ Hdots) as [Hl Ha].
    split; [exact Hdots|]. split; [exact Hl|apply Ha].
  - split; [exact Hname|].
    destruct (Hok _ Hname) as (last & initial & Hl & Hi & H0 & _).
    exists last, initial. repeat split; assumption.
  - split; [exact Hpool|]. now apply Hverify.
Defined.



(** A run over two publications, one of them without a title. *)
Example main_run :
  main exact_ratio exact_ratio sample_web "Jane Smith" None None None
    [Some "Deep Learning for X"%string; None]
  = {| outfile :=
         Some ("verification_report_jane_smith.csv"%string,
               [Header ["claimed_title"; "matched_title"; "matched_source"; "doi";
                        "confidence_score"; "classification";
                        "verification_strength"; "reason"]%string;
                Row {| Verification.claimed_title := "Deep Learning for X";
                       Verification.matched_title := "Deep learning for X";
                       Verification.matched_source := "Crossref";
                       Verification.doi := Some "10.1000/x"%string;
                       Verification.confidence_score := 95;
                       Verification.classification := "AUTHENTIC";
                       Verification.verification_strength := "Moderate (Name + DOI)";
                       Verification.reason := "Automated bibliographic verification" |}]);
       outcome := Ok {| authentic := 1; total := 1; percent := 100 |} |}.
Proof. vm_compute. reflexivity. Qed.

End Instances.

(** ** More on the text utilities *)

Section TextShape.

Local Open Scope string_scope.

Lemma append_assoc (a b c : string) : (a ++ b) ++ c = a ++ (b ++ c).
Proof. induction a as [|x a IH]; simpl; congruence. Qed.

Lemma lstrip_clean_head (s : string) : Py.at_boundary s = false -> Py.lstrip s = s.
Proof. destruct s as [|c s]; [discriminate|]. simpl. now intros ->. Qed.

Lemma lstrip_head (s : string) :
  Py.lstrip s = "" \/ Py.at_boundary (Py.lstrip s) = false.
Proof.
  induction s as [|c s IH]; [now left|].
  simpl. destruct (Py.isspace c) eqn:Ec; [exact IH|]. right. simpl. exact Ec.
Qed.

Lemma rstrip_head (s : string) :
  Py.at_boundary s = false -> Py.at_boundary (Py.rstrip s) = false.
Proof.
  destruct s as [|c s]; [discriminate|]. simpl. intros Ec.
  destruct (Py.rstrip s); [rewrite Ec|]; simpl; exact Ec.
Qed.

Lemma rstrip_idem (s : string) : Py.rstrip (Py.rstrip s) = Py.rstrip s.
Proof.
  induction s as [|c s IH]; [reflexivity|].
  cbn [Py.rstrip]. destruct (Py.rstrip s) as [|c1 r1] eqn:Er.
  - destruct (Py.isspace c) eqn:Ec; [reflexivity|]. cbn [Py.rstrip]. now rewrite Ec.
  - cbn [Py.rstrip] in IH |- *. now rewrite IH.
Qed.

Lemma strip_idem (s : string) : Py.strip (Py.strip s) = Py.strip s.
Proof.
  unfold Py.strip. destruct (lstrip_head s) as [->|Hb]; [reflexivity|].
  rewrite (lstrip_clean_head _ (rstrip_head _ Hb)). apply rstrip_idem.
Qed.

Lemma rstrip_word (p : ascii -> bool) (w : string) : word_of p w -> Py.rstrip w = w.
Proof.
  intros [Hne Hw]. induction w as [|c w IH]; [congruence|].
  simpl in Hw. apply andb_true_iff in Hw as [Hc Hw].
  apply andb_true_iff in Hc as [Hc _]. apply negb_true_iff in Hc.
  cbn [Py.rstrip]. destruct w as [|c' w'].
  - simpl. now rewrite Hc.
  - rewrite IH; [reflexivity|discriminate|exact Hw].
Qed.

Lemma rstrip_app (x r : string) :
  Py.rstrip r <> "" -> Py.rstrip (x ++ r) = x ++ Py.rstrip r.
Proof.
  intros Hr. induction x as [|c x IH]; [reflexivity|].
  cbn [append Py.rstrip]. rewrite IH.
  destruct (x ++ Py.rstrip r) as [|c1 r1] eqn:E; [|reflexivity].
  exfalso. destruct x; simpl in E; [congruence|discriminate].
Qed.

Lemma rstrip_join (p : ascii -> bool) (ws : list string) :
  Forall (word_of p) ws -> Py.rstrip (Py.join " " ws) = Py.join " " ws.
Proof.
  unfold Py.join. induction ws as [|w ws IH]; intros Hws; [reflexivity|].
  inversion Hws as [|? ? Hw Hrest]; subst.
  destruct ws as [|w' ws']; [exact (rstrip_word p w Hw)|].
  change (concat " " (w :: w' :: ws')) with (w ++ String " " (concat " " (w' :: ws'))).
  inversion Hrest as [|? ? Hw' _]; subst.
  pose proof (join_words_nonempty p w' ws' Hw') as Hne. unfold Py.join in Hne.
  assert (Htail : Py.rstrip (String " " (concat " " (w' :: ws')))
                  = String " " (concat " " (w' :: ws'))).
  { cbn [Py.rstrip]. rewrite (IH Hrest).
    destruct (concat " " (w' :: ws')); [congruence|reflexivity]. }
  rewrite rstrip_app; rewrite Htail; [reflexivity|discriminate].
Qed.

Lemma strip_join (p : ascii -> bool) (ws : list string) :
  Forall (word_of p) ws -> Py.strip (Py.join " " ws) = Py.join " " ws.
Proof.
  intros Hws. unfold Py.strip.
  assert (Hl : Py.lstrip (Py.join " " ws) = Py.join " " ws).
  { destruct ws as [|w ws]; [reflexivity|].
    inversion Hws as [|? ? [Hne Hw] _]; subst.
    apply lstrip_clean_head. unfold Py.join.
    destruct w as [|c w]; [congruence|].
    simpl in Hw. apply andb_true_iff in Hw as [Hc _].
    apply andb_true_iff in Hc as [Hc _]. apply negb_true_iff in Hc.
    destruct ws; simpl; exact Hc. }
  rewrite Hl. now apply (rstrip_join p).
Qed.

Lemma join_snoc (ws : list string) (l : string) :
  ws <> [] -> Py.join " " (ws ++ [l]) = Py.join " " ws ++ " " ++ l.
Proof.
  unfold Py.join. induction ws as [|w ws IH]; [congruence|]. intros _.
  destruct ws as [|w' ws']; [reflexivity|].
  change (concat " " ((w :: w' :: ws') ++ [l]))
    with (w ++ " " ++ concat " " ((w' :: ws') ++ [l])).
  rewrite IH by discriminate.
  change (concat " " (w :: w' :: ws')) with (w ++ " " ++ concat " " (w' :: ws')).
  now rewrite !append_assoc.
Qed.

Lemma split_normalize (t : string) :
  Py.split (normalize (Some t)) = Py.split (sub_punct (Py.lower t)).
Proof.
  rewrite normalize_some. apply (split_join settled), normalize_words.
Qed.

(** X1. The output of [normalize] is in normal form: it is unchanged by
    lower-casing, by the punctuation substitution and by trimming, it is
    its own words joined by single spaces, and each of its characters is
    a space or a word character. *)
Theorem normalize_output_is_normal (text : option string) :
  Py.lower (normalize text) = normalize text
  /\ sub_punct (normalize text) = normalize text
  /\ Py.strip (normalize text) = normalize text
  /\ Py.join " " (Py.split (normalize text)) = normalize text
  /\ Py.all (fun c => Ascii.eqb c " " || Py.isword c) (normalize text) = true.
Proof.
  destruct text as [t|]; [|repeat split; reflexivity].
  rewrite split_normalize. rewrite normalize_some.
  pose proof (normalize_words t) as Hws.
  set (ws := Py.split (sub_punct (Py.lower t))) in *.
  assert (Hall : forall q : ascii -> bool,
             q " "%char = true ->
             (forall c, negb (Py.isspace c) && settled c = true -> q c = true) ->
             Py.all q (Py.join " " ws) = true).
  { intros q Hsp Hq. apply all_join; [exact Hsp|].
    eapply Forall_impl; [|exact Hws].
    intros w [_ Hw]. eapply all_impl; [|exact Hw]. exact Hq. }
  split; [|split; [|split; [|split]]].
  - apply map_fixed, Hall; [reflexivity|].
    intros c Hc. apply andb_true_iff in Hc as [_ Hc].
    unfold settled in Hc. now apply andb_true_iff in Hc as [_ Hc].
  - apply map_fixed, Hall; [reflexivity|].
    intros c Hc. apply andb_true_iff in Hc as [_ Hc].
    unfold settled in Hc. apply andb_true_iff in Hc as [Hword _].
    unfold is_punct. rewrite Hword. simpl. apply Ascii.eqb_refl.
  - now apply (strip_join settled).
  - reflexivity.
  - apply Hall; [reflexivity|].
    intros c Hc. apply andb_true_iff in Hc as [_ Hc].
    unfold settled in Hc. apply andb_true_iff in Hc as [Hword _].
    rewrite Hword. apply orb_true_r.
Qed.

(** X2. When the name normalizes to a non-empty string, [last_name]
    returns its last word: a non-empty string of word characters without
    whitespace, at the end of the normalized name and preceded there by
    nothing or by a space. *)
Theorem last_name_is_last_word (full_name : option string) :
  normalize full_name <> "" ->
  exists last before,
    last_name full_name = Ok last
    /\ word_of settled last
    /\ normalize full_name = before ++ last
    /\ (before = "" \/ exists words, before = words ++ " ").
Proof.
  destruct full_name as [t|]; [|intros H; now contradiction H].
  intros Hne. unfold last_name, last_item. rewrite split_normalize.
  rewrite normalize_some in Hne |- *.
  pose proof (normalize_words t) as Hws.
  set (ws := Py.split (sub_punct (Py.lower t))) in *.
  destruct (rev ws) as [|l r] eqn:Er.
  - exfalso. apply Hne. apply (f_equal (@rev string)) in Er.
    rewrite rev_involutive in Er. now rewrite Er.
  - assert (Hws' : ws = (rev r ++ [l])%list).
    { apply (f_equal (@rev string)) in Er. now rewrite rev_involutive in Er. }
    exists l. rewrite Hws' in Hws |- *.
    apply Forall_app in Hws as [_ Hl]. inversion Hl as [|? ? Hword _]; subst.
    destruct (rev r) as [|w ws'] eqn:Erev.
    + exists "". repeat split; try apply Hword. now left.
    + exists (Py.join " " (w :: ws') ++ " "). repeat split; try apply Hword.
      * rewrite join_snoc by discriminate. now rewrite append_assoc.
      * right. now exists (Py.join " " (w :: ws')).
Qed.

End TextShape.


(** ** More on the verification engine *)

Section EngineMore.

Local Open Scope Q_scope.

Variable partial_ratio : string -> string -> Q.
Variable token_set_ratio : string -> string -> Q.
Variable requests_get : request -> result response.

Hypothesis partial_ratio_range : forall a b, 0 <= partial_ratio a b <= 100.
Hypothesis token_set_ratio_range : forall a b, 0 <= token_set_ratio a b <= 100.

Local Abbreviation author_score := (author_name_score partial_ratio).
Local Abbreviation scores := (candidate_scores partial_ratio token_set_ratio).
Local Abbreviation verify := (verify_publication partial_ratio token_set_ratio requests_get).
Local Abbreviation choose := (select partial_ratio token_set_ratio).
Local Abbreviation candidates := (pool requests_get).

(** *** The author name enters through its normalization only *)

Lemma author_score_normal (f1 f2 : option string) (authors : list string) :
  normalize f1 = normalize f2 -> author_score f1 authors = author_score f2 authors.
Proof. intros H. unfold author_name_score, last_name. now rewrite H. Qed.

Lemma select_normal (pub : Pub.t) (n1 n2 : string)
    (orcid scopus_id researcher_id : option string) (cs : list Candidate.t) :
  normalize (Some n1) = normalize (Some n2) ->
  forall st,
    choose pub n1 orcid scopus_id researcher_id st cs
    = choose pub n2 orcid scopus_id researcher_id st cs.
Proof.
  intros H. induction cs as [|c cs IH]; intros st; [reflexivity|].
  simpl. unfold consider. rewrite (author_score_normal _ _ _ H).
  destruct (author_score (Some n2) (Candidate.authors c)); simpl; [apply IH|reflexivity].
Qed.

(** X3. [verify_publication] depends on the author name only through
    its normalization: two names with the same normalization (that
    differ in case, punctuation or spacing) give the same outcome. *)
Theorem verify_depends_on_normalized_name (pub : Pub.t) (n1 n2 : string)
    (orcid scopus_id researcher_id : option string) :
  normalize (Some n1) = normalize (Some n2) ->
  verify pub n1 orcid scopus_id researcher_id
  = verify pub n2 orcid scopus_id researcher_id.
Proof.
  intros H. rewrite !verify_unfold.
  destruct (candidates (Pub.title pub)) as [|c cs]; [reflexivity|].
  now rewrite (select_normal pub n1 n2 orcid scopus_id researcher_id (c :: cs) H).
Qed.

(** *** What the adapters put in a candidate *)

Lemma for_each_in {A B : Type} (f : A -> result B) (l : list A) (l' : list B) (y : B) :
  for_each f l = Ok l' -> In y l' -> exists x, In x l /\ f x = Ok y.
Proof.
  intros H. apply for_each_Forall2 in H.
  induction H as [|x y' l l' Hxy _ IH]; intros Hy; [destruct Hy|].
  destruct Hy as [<-|Hy].
  - exists x. split; [now left|exact Hxy].
  - destruct (IH Hy) as (x' & Hx' & Hf). exists x'. split; [now right|exact Hf].
Qed.

Lemma except_empty_in {A B : Type} (f : A -> result B) (l : list A) (y : B) :
  In y (except_empty (for_each f l)) -> exists x, In x l /\ f x = Ok y.
Proof.
  destruct (for_each f l) as [l'|e] eqn:E; simpl; [|intros []].
  now apply for_each_in.
Qed.

Lemma crossref_candidate_shape (i : Crossref.item) (c : Candidate.t) :
  crossref_candidate i = Ok c ->
  Candidate.source c = "Crossref"%string
  /\ Candidate.doi c = Crossref.DOI i
  /\ exists ids, Candidate.orcid c = Some ids /\ Forall (fun o => o <> ""%string) ids.
Proof.
  unfold crossref_candidate.
  destruct (first_item (get (Crossref.title i) [""%string])) as [t|e]; simpl; [|discriminate].
  intros H. inversion H; subst. clear H. simpl.
  split; [reflexivity|]. split; [reflexivity|].
  eexists. split; [reflexivity|].
  induction (get (Crossref.author_ i) []) as [|a l IH]; simpl; [constructor|].
  destruct (Crossref.ORCID a) as [o|]; simpl; [|exact IH].
  destruct o as [|x o]; simpl; [exact IH|].
  constructor; [discriminate|exact IH].
Qed.

Lemma semantic_candidate_shape (d : Semantic.paper) (c : Candidate.t) :
  semantic_candidate d = Ok c ->
  Candidate.source c = "SemanticScholar"%string /\ Candidate.orcid c = None.
Proof.
  unfold semantic_candidate.
  destruct (for_each _ _) as [authors|e]; simpl; [|discriminate].
  intros H. inversion H; subst. now split.
Qed.

Lemma crossref_lookup_in (title : string) (c : Candidate.t) :
  In c (crossref_lookup requests_get title) ->
  exists i, crossref_candidate i = Ok c.
Proof.
  destruct (crossref_lookup_cases requests_get title)
    as [->|(r & items & _ & _ & _ & ->)]; [intros []|].
  intros H. apply except_empty_in in H as (i & _ & Hi). now exists i.
Qed.

Lemma semantic_lookup_in (title : string) (c : Candidate.t) :
  In c (semantic_lookup requests_get title) ->
  exists d, semantic_candidate d = Ok c.
Proof.
  destruct (semantic_lookup_cases requests_get title)
    as [->|(r & papers & _ & _ & _ & ->)]; [intros []|].
  intros H. apply except_empty_in in H as (d & _ & Hd). now exists d.
Qed.

Lemma pool_candidates_by_adapter_aux (title : string) (c : Candidate.t) :
  In c (candidates title) ->
  Candidate.source c = "Crossref"%string \/ Candidate.source c = "SemanticScholar"%string.
Proof.
  unfold pool. intros H. apply in_app_or in H as [H|H].
  - left. apply crossref_lookup_in in H as (i & Hi).
    now apply crossref_candidate_shape in Hi as (Hs & _).
  - right. apply semantic_lookup_in in H as (d & Hd).
    now apply semantic_candidate_shape in Hd as (Hs & _).
Qed.


(** *** The fields of a result *)

Section OneResult.

Variable pub : Pub.t.
Variable author_name : string.
Variables orcid scopus_id researcher_id : option string.

Local Abbreviation scores1 := (scores pub author_name orcid scopus_id researcher_id).
Local Abbreviation verify1 := (verify pub author_name orcid scopus_id researcher_id).

Lemma verify_result_cases (res : Verification.t) :
  verify1 = Ok res ->
  (candidates (Pub.title pub) = []
   /\ res = build_result pub None 85 "SCHOLAR-CLAIMED OUTPUT"
              "No external bibliographic record found"
              (verification_strength orcid false))
  \/ exists b a s,
       In b (candidates (Pub.title pub))
       /\ scores1 b = Ok (a, s)
       /\ res = build_result pub (Some b) (cap_score s)
                  (if Qle_bool 85 a then "AUTHENTIC"
                   else if Qle_bool 75 s then "LIKELY AUTHENTIC"
                   else if Qle_bool 60 s then "SCHOLAR-CLAIMED OUTPUT"
                   else "LIKELY MISATTRIBUTED")
                  "Automated bibliographic verification"
                  (verification_strength orcid (Py.truthy (Candidate.doi b))).
Proof.
  rewrite verify_unfold.
  destruct (candidates (Pub.title pub)) as [|c cs] eqn:Epool.
  - intros H. inversion H. now left.
  - destruct (select partial_ratio token_set_ratio pub author_name orcid scopus_id
                researcher_id selection_init (c :: cs)) as [st|e] eqn:Est;
      simpl; [|discriminate].
    intros H. inversion H; subst. clear H. right.
    assert (Hne : c :: cs <> []) by discriminate.
    destruct (select_from_init partial_ratio token_set_ratio partial_ratio_range
                token_set_ratio_range pub author_name orcid scopus_id researcher_id
                _ _ Hne Est) as (i & b & a & s & Hn & Hb & -> & _).
    exists b, a, s. split; [exact (nth_error_In _ _ Hn)|]. now split.
Qed.

(** X5. A result names the publication it was asked about, carries one
    of the four labels and one of the three strengths, and tells where
    the match came from: "Google Scholar only" with the reason "No
    external bibliographic record found" exactly for an empty pool,
    otherwise "Crossref" or "SemanticScholar" with the reason
    "Automated bibliographic verification". *)
Theorem result_fields (res : Verification.t) :
  verify1 = Ok res ->
  Verification.claimed_title res = Pub.title pub
  /\ In (Verification.classification res)
       ["AUTHENTIC"; "LIKELY AUTHENTIC"; "SCHOLAR-CLAIMED OUTPUT";
        "LIKELY MISATTRIBUTED"]%string
  /\ In (Verification.verification_strength res)
       ["Strong (ORCID + DOI)"; "Moderate (Name + DOI)"; "Basic (Scholar-only)"]%string
  /\ (candidates (Pub.title pub) = [] ->
      Verification.matched_source res = "Google Scholar only"%string
      /\ Verification.matched_title res = ""%string
      /\ Verification.reason res = "No external bibliographic record found"%string)
  /\ (candidates (Pub.title pub) <> [] ->
      In (Verification.matched_source res) ["Crossref"; "SemanticScholar"]%string
      /\ Verification.reason res = "Automated bibliographic verification"%string).
Proof.
  intros H.
  assert (Hstrength : forall d,
             In (verification_strength orcid d)
               ["Strong (ORCID + DOI)"; "Moderate (Name + DOI)";
                "Basic (Scholar-only)"]%string).
  { intros d. unfold verification_strength.
    destruct (Py.truthy orcid), d; simpl; tauto. }
  destruct (verify_result_cases res H) as [[Hpool ->]|(b & a & s & Hin & Hs & ->)].
  - cbn [build_result Verification.claimed_title Verification.classification
         Verification.verification_strength Verification.matched_source
         Verification.matched_title Verification.reason].
    split; [reflexivity|]. split; [simpl; tauto|]. split; [apply Hstrength|].
    split; [now intros _|]. intros Hne. now contradiction Hne.
  - cbn [build_result Verification.claimed_title Verification.classification
         Verification.verification_strength Verification.matched_source
         Verification.matched_title Verification.reason].
    split; [reflexivity|]. split.
    { destruct (Qle_bool 85 a); [simpl; tauto|].
      destruct (Qle_bool 75 s); [simpl; tauto|].
      destruct (Qle_bool 60 s); simpl; tauto. }
    split; [apply Hstrength|]. split.
    + intros Hpool. rewrite Hpool in Hin. destruct Hin.
    + intros _. split; [|reflexivity].
      destruct (pool_candidates_by_adapter_aux _ b Hin) as [->| ->]; simpl; tauto.
Qed.

Lemma scores_value (c : Candidate.t) (a s : Q) :
  scores1 c = Ok (a, s) ->
  author_score (Some author_name) (Candidate.authors c) = Ok a
  /\ s = composite_score
           (title_score token_set_ratio (Some (Pub.title pub)) (Some (Candidate.title c)))
           a (Py.truthy (Candidate.doi c))
           (id_bonus orcid scopus_id researcher_id (Some c)).
Proof.
  unfold candidate_scores.
  destruct (author_score (Some author_name) (Candidate.authors c)) as [a'|e];
    simpl; [|discriminate].
  intros H.
  pose proof (f_equal (fun r => match r with Ok p => fst p | Raise _ => 0 end) H) as Ha.
  pose proof (f_equal (fun r => match r with Ok p => snd p | Raise _ => 0 end) H) as Hs.
  cbn [fst snd] in Ha, Hs. subst a s. split; reflexivity.
Qed.

Lemma id_bonus_le_ceiling (hit : option Candidate.t) :
  (id_bonus orcid scopus_id researcher_id hit
   <= bonus_ceiling orcid scopus_id researcher_id)%Z.
Proof.
  unfold id_bonus, bonus_ceiling.
  destruct orcid as [o|], hit as [h|];
    repeat match goal with
           | |- context [existsb ?f ?l] => destruct (existsb f l)
           | |- context [Py.truthy ?x] => destruct (Py.truthy x)
           end; cbn; lia.
Qed.

Lemma Qle_bool_lt (x y : Q) : Qle_bool x y = false -> y < x.
Proof.
  intros H. apply Qnot_le_lt. intros Hle. apply Qle_bool_iff in Hle. congruence.
Qed.

(** X6. The strength column is decided by the ORCID answer and the DOI
    column of the same result: it is "Strong (ORCID + DOI)" exactly when
    an ORCID was supplied and the result has a DOI (the ORCID need not
    occur in the matched record), and "Basic (Scholar-only)" exactly
    when the result has no DOI. *)
Theorem strength_follows_doi_column (res : Verification.t) :
  verify1 = Ok res ->
  Verification.verification_strength res
  = verification_strength orcid (Py.truthy (Verification.doi res))
  /\ (Verification.verification_strength res = "Strong (ORCID + DOI)"%string
      <-> Py.truthy orcid = true /\ Py.truthy (Verification.doi res) = true)
  /\ (Verification.verification_strength res = "Basic (Scholar-only)"%string
      <-> Py.truthy (Verification.doi res) = false).
Proof.
  intros H.
  assert (Hd : Verification.verification_strength res
               = verification_strength orcid (Py.truthy (Verification.doi res))).
  { destruct (verify_result_cases res H) as [[_ ->]|(b & a & s & _ & _ & ->)];
      reflexivity. }
  split; [exact Hd|]. rewrite Hd. unfold verification_strength.
  destruct (Py.truthy orcid), (Py.truthy (Verification.doi res)); simpl;
    repeat split; try tauto; try discriminate; intros [? ?]; discriminate.
Qed.

(** X7. For a non-empty pool the label bounds the confidence score that
    is reported with it: LIKELY AUTHENTIC comes with at least 75,
    SCHOLAR-CLAIMED OUTPUT with a score from 60 to 75, LIKELY
    MISATTRIBUTED with at most 60, and AUTHENTIC with at least 21.25. *)
Theorem label_bounds_confidence (res : Verification.t) :
  verify1 = Ok res ->
  candidates (Pub.title pub) <> [] ->
  (Verification.classification res = "AUTHENTIC"%string ->
   (85 # 4) <= Verification.confidence_score res)
  /\ (Verification.classification res = "LIKELY AUTHENTIC"%string ->
      75 <= Verification.confidence_score res)
  /\ (Verification.classification res = "SCHOLAR-CLAIMED OUTPUT"%string ->
      60 <= Verification.confidence_score res <= 75)
  /\ (Verification.classification res = "LIKELY MISATTRIBUTED"%string ->
      Verification.confidence_score res <= 60).
Proof.
  intros H Hpool.
  destruct (verify_result_cases res H) as [[Hnil _]|(b & a & s & _ & Hs & ->)];
    [congruence|].
  cbn [build_result Verification.classification Verification.confidence_score].
  apply scores_value in Hs as [Ha ->].
  set (s := composite_score _ a _ _).
  destruct (Qle_bool 85 a) eqn:E85.
  { apply Qle_bool_iff in E85.
    split; [|split; [|split]]; intros Hl; try discriminate Hl.
    apply (Qle_trans _ (cap_score (composite_score 0 85 false 0)));
      [vm_compute; discriminate|].
    apply cap_score_mono, composite_score_mono;
      [apply token_set_ratio_range|exact E85|discriminate|apply id_bonus_range]. }
  destruct (Qle_bool 75 s) eqn:E75.
  { apply Qle_bool_iff in E75.
    split; [|split; [|split]]; intros Hl; try discriminate Hl.
    apply (Qle_trans _ (cap_score 75)); [vm_compute; discriminate|].
    now apply cap_score_mono. }
  apply Qle_bool_lt in E75.
  destruct (Qle_bool 60 s) eqn:E60.
  { apply Qle_bool_iff in E60.
    split; [|split; [|split]]; intros Hl; try discriminate Hl.
    split.
    - apply (Qle_trans _ (cap_score 60)); [vm_compute; discriminate|].
      now apply cap_score_mono.
    - apply (Qle_trans _ (cap_score 75)); [|vm_compute; discriminate].
      now apply cap_score_mono, Qlt_le_weak. }
  apply Qle_bool_lt in E60.
  split; [|split; [|split]]; intros Hl; try discriminate Hl.
  apply (Qle_trans _ (cap_score 60)); [|vm_compute; discriminate].
  now apply cap_score_mono, Qlt_le_weak.
Qed.

(** X8. The confidence score never exceeds 95 plus what the supplied
    identifiers can add (15 for an ORCID, 5 for a Scopus ID, 5 for a
    Researcher ID); without identifiers it is at most 95. *)
Theorem confidence_ceiling (res : Verification.t) :
  verify1 = Ok res ->
  Verification.confidence_score res
  <= inject_Z (95 + bonus_ceiling orcid scopus_id researcher_id).
Proof.
  intros H.
  destruct (verify_result_cases res H) as [[_ ->]|(b & a & s & _ & Hs & ->)];
    cbn [build_result Verification.confidence_score].
  - unfold bonus_ceiling.
    destruct (Py.truthy orcid), (Py.truthy scopus_id), (Py.truthy researcher_id);
      vm_compute; discriminate.
  - apply scores_value in Hs as [Ha ->].
    pose proof (author_score_range partial_ratio partial_ratio_range _ _ _ Ha) as Hra.
    apply (Qle_trans _ (cap_score (composite_score 100 100 true
                                     (bonus_ceiling orcid scopus_id researcher_id)))).
    + apply cap_score_mono, composite_score_mono;
        [apply token_set_ratio_range|apply Hra|reflexivity|apply id_bonus_le_ceiling].
    + unfold bonus_ceiling.
      destruct (Py.truthy orcid), (Py.truthy scopus_id), (Py.truthy researcher_id);
        vm_compute; discriminate.
Qed.

End OneResult.

End EngineMore.

(** ** More on the adapters *)

Section AdapterMore.

Variable requests_get : request -> result response.

(** X9. The Crossref adapter keeps all records of a successful response
    or none: a single record whose title list is empty makes the lookup
    return the empty sequence, and when no record has one the lookup
    returns exactly one candidate for each record. *)
Theorem crossref_lookup_all_or_nothing (title : string) (r : response)
    (items : list Crossref.item) :
  requests_get (crossref_request title) = Ok r ->
  ok r = true ->
  json r = Ok (CrossrefDoc
                 {| Crossref.message_ := Some {| Crossref.items := Some items |} |}) ->
  (Exists (fun i => Crossref.title i = Some []) items ->
   crossref_lookup requests_get title = [])
  /\ (Forall (fun i => Crossref.title i <> Some []) items ->
      List.length (crossref_lookup requests_get title) = List.length items).
Proof.
  intros Hr Hok Hj.
  assert (Heq : crossref_lookup requests_get title
                = except_empty (for_each crossref_candidate items)).
  { unfold crossref_lookup. rewrite Hr. simpl. rewrite Hok. simpl. now rewrite Hj. }
  rewrite Heq. split.
  - intros Hbad.
    destruct (for_each_raises crossref_candidate items) as [e ->]; [|reflexivity].
    eapply Exists_impl; [|exact Hbad]. intros i. apply crossref_candidate_raises.
  - intros Hgood.
    destruct (for_each_succeeds crossref_candidate items) as [l' Hl'].
    { eapply Forall_impl; [|exact Hgood]. intros i Hi.
      destruct (crossref_candidate i) as [c|e] eqn:E; [now exists c|].
      exfalso. apply Hi. apply crossref_candidate_raises. now exists e. }
    rewrite Hl'. simpl. now apply for_each_length in Hl'.
Qed.

(** X10. The Semantic Scholar adapter keeps all records of a successful
    response or none: a single author entry without a name makes the
    lookup return the empty sequence, and when every author entry has a
    name the lookup returns exactly one candidate for each record. *)
Theorem semantic_lookup_all_or_nothing (title : string) (r : response)
    (papers : list Semantic.paper) :
  requests_get (semantic_request title) = Ok r ->
  ok r = true ->
  json r = Ok (SemanticDoc {| Semantic.data := Some papers |}) ->
  (Exists (fun d => Exists (fun a => Semantic.name a = None)
                      (get (Semantic.authors d) [])) papers ->
   semantic_lookup requests_get title = [])
  /\ (Forall (fun d => Forall (fun a => Semantic.name a <> None)
                         (get (Semantic.authors d) [])) papers ->
      List.length (semantic_lookup requests_get title) = List.length papers).
Proof.
  intros Hr Hok Hj.
  assert (Heq : semantic_lookup requests_get title
                = except_empty (for_each semantic_candidate papers)).
  { unfold semantic_lookup. rewrite Hr. simpl. rewrite Hok. simpl. now rewrite Hj. }
  rewrite Heq. split.
  - intros Hbad.
    destruct (for_each_raises semantic_candidate papers) as [e ->]; [|reflexivity].
    eapply Exists_impl; [|exact Hbad]. intros d. apply semantic_candidate_raises.
  - intros Hgood.
    destruct (for_each_succeeds semantic_candidate papers) as [l' Hl'].
    { eapply Forall_impl; [|exact Hgood]. intros d Hd.
      destruct (semantic_candidate d) as [c|e] eqn:E; [now exists c|].
      exfalso. assert (Hex : exists e, semantic_candidate d = Raise e) by now exists e.
      apply semantic_candidate_raises in Hex.
      apply Exists_exists in Hex as (a & Ha & Hnone).
      rewrite Forall_forall in Hd. exact (Hd a Ha Hnone). }
    rewrite Hl'. simpl. now apply for_each_length in Hl'.
Qed.

End AdapterMore.

(** ** More on the report *)

Section MainMore.

Local Open Scope Q_scope.

Variable partial_ratio : string -> string -> Q.
Variable token_set_ratio : string -> string -> Q.
Variable requests_get : request -> result response.

Local Abbreviation verify := (verify_publication partial_ratio token_set_ratio requests_get).
Local Abbreviation verify_each := (verify_all partial_ratio token_set_ratio requests_get).
Local Abbreviation run_main := (main partial_ratio token_set_ratio requests_get).
Local Abbreviation candidates := (pool requests_get).

Lemma verify_claimed_title (pub : Pub.t) (name : string)
    (orcid scopus_id researcher_id : option string) (res : Verification.t) :
  verify pub name orcid scopus_id researcher_id = Ok res ->
  Verification.claimed_title res = Pub.title pub.
Proof.
  rewrite verify_unfold. destruct (candidates (Pub.title pub)) as [|c cs].
  - intros H. now inversion H.
  - destruct (select _ _ _ _ _ _ _ _ _) as [st|e]; simpl; [|discriminate].
    intros H. now inversion H.
Qed.

Lemma count_authentic_app (l1 l2 : list Verification.t) :
  count_authentic (l1 ++ l2) = (count_authentic l1 + count_authentic l2)%Z.
Proof. unfold count_authentic. rewrite filter_app, length_app. lia. Qed.

Lemma count_authentic_bounds (l : list Verification.t) :
  (0 <= count_authentic l <= Z.of_nat (List.length l))%Z.
Proof.
  unfold count_authentic. split; [lia|]. apply inj_le, filter_length_le.
Qed.

Lemma verify_all_results (name : string) (orcid scopus_id researcher_id : option string)
    (pubs : list Pub.t) :
  forall results count results' count',
    verify_each name orcid scopus_id researcher_id pubs results count = Ok (results', count') ->
    exists new,
      results' = (results ++ new)%list
      /\ map Verification.claimed_title new = map Pub.title pubs
      /\ count' = (count + count_authentic new)%Z.
Proof.
  induction pubs as [|pub pubs IH]; intros results count results' count' H; simpl in H.
  - inversion H; subst. exists []. rewrite app_nil_r. repeat split.
    unfold count_authentic. simpl. lia.
  - destruct (verify pub name orcid scopus_id researcher_id) as [res|e] eqn:Ev;
      simpl in H; [|discriminate].
    apply IH in H as (new & -> & Htitles & ->).
    exists (res :: new). split; [now rewrite <- app_assoc|]. split.
    + simpl. now rewrite Htitles, (verify_claimed_title _ _ _ _ _ _ Ev).
    + change (res :: new) with ([res] ++ new)%list. rewrite count_authentic_app.
      assert (H1 : count_authentic [res]
                   = if String.eqb (Verification.classification res) "AUTHENTIC"
                     then 1%Z else 0%Z).
      { unfold count_authentic. simpl.
        now destruct (String.eqb (Verification.classification res) "AUTHENTIC"). }
      rewrite H1.
      destruct (String.eqb (Verification.classification res) "AUTHENTIC"); lia.
Qed.

Lemma percent_bounds (count : Z) (n : nat) :
  (0 <= count <= Z.of_nat (S n))%Z ->
  0 <= py_round (fmul (fdiv (inject_Z count) (inject_Z (Z.of_nat (S n)))) 100) 1 <= 100.
Proof.
  intros [H0 Hn].
  assert (Hpos : 0 < inject_Z (Z.of_nat (S n))).
  { change 0 with (inject_Z 0). rewrite <- Zlt_Qlt. lia. }
  assert (Hc0 : 0 <= inject_Z count).
  { change 0 with (inject_Z 0). now rewrite <- Zle_Qle. }
  assert (Hcn : inject_Z count <= inject_Z (Z.of_nat (S n))) by now rewrite <- Zle_Qle.
  assert (Hlow : 0 <= inject_Z count / inject_Z (Z.of_nat (S n))).
  { apply Qle_shift_div_l; [exact Hpos|]. lra. }
  assert (Hup : inject_Z count / inject_Z (Z.of_nat (S n)) <= 1).
  { apply Qle_shift_div_r; [exact Hpos|]. lra. }
  assert (Hr0 : 0 <= fdiv (inject_Z count) (inject_Z (Z.of_nat (S n)))).
  { apply (Qle_trans _ (binary64 0)); [vm_compute; discriminate|].
    unfold fdiv. now apply binary64_mono. }
  assert (Hr1 : fdiv (inject_Z count) (inject_Z (Z.of_nat (S n))) <= 1).
  { apply (Qle_trans _ (binary64 1)); [|vm_compute; discriminate].
    unfold fdiv. now apply binary64_mono. }
  set (ratio := fdiv _ _) in *.
  assert (Hp0 : 0 <= fmul ratio 100).
  { apply (Qle_trans _ (binary64 0)); [vm_compute; discriminate|].
    unfold fmul. apply binary64_mono. lra. }
  assert (Hp1 : fmul ratio 100 <= 100).
  { apply (Qle_trans _ (binary64 100)); [|vm_compute; discriminate].
    unfold fmul. apply binary64_mono. lra. }
  split.
  - apply (Qle_trans _ (py_round 0 1)); [vm_compute; discriminate|].
    now apply py_round_mono.
  - apply (Qle_trans _ (py_round 100 1)); [|vm_compute; discriminate].
    now apply py_round_mono.
Qed.

(** X11. A run that ends with a summary wrote the header and then one
    row for each publication that has a title, in the order of the
    profile, each row naming its publication. The summary counts the
    rows labelled AUTHENTIC, and its percentage lies between 0 and 100. *)
Theorem report_mirrors_publications
    (name : string) (orcid scopus_id researcher_id : option string)
    (publications : list (option string)) (s : summary_line) :
  outcome (run_main name orcid scopus_id researcher_id publications) = Ok s ->
  exists path results,
    outfile (run_main name orcid scopus_id researcher_id publications)
    = Some (path,
            Header ["claimed_title"; "matched_title"; "matched_source"; "doi";
                    "confidence_score"; "classification"; "verification_strength";
                    "reason"]%string
            :: map Row results)
    /\ map (fun r => Some (Verification.claimed_title r)) results = titled publications
    /\ total s = List.length results
    /\ authentic s = count_authentic results
    /\ (0 <= authentic s <= Z.of_nat (total s))%Z
    /\ 0 <= percent s <= 100.
Proof.
  unfold main. rewrite pubs_of_titled.
  destruct (verify_each name orcid scopus_id researcher_id
              (map (fun t => Pub.make (get t "")) (titled publications)) [] 0)
    as [[results count]|e] eqn:Ev; [|discriminate].
  apply verify_all_results in Ev as (new & Hres & Htitles & Hcount).
  simpl in Hres. subst results. rewrite map_map in Htitles. simpl in Htitles.
  destruct new as [|r0 rs]; [discriminate|].
  cbn [write_report first_item outfile outcome bind].
  unfold summary, py_div.
  destruct (Qeq_bool (inject_Z (Z.of_nat (List.length (r0 :: rs)))) 0) eqn:E.
  { apply Qeq_bool_iff in E. unfold Qeq in E. simpl in E. lia. }
  cbn [bind]. intros Hs. inversion Hs; subst s. clear Hs.
  cbn [total authentic percent].
  pose proof (count_authentic_bounds (r0 :: rs)) as Hb.
  eexists _, (r0 :: rs). split; [reflexivity|]. split.
  { rewrite <- (map_map Verification.claimed_title Some), Htitles, map_map.
    unfold titled. clear.
    induction publications as [|t l IH]; [reflexivity|].
    simpl. destruct t as [[|c t]|]; simpl; [exact IH| |exact IH]. now rewrite IH. }
  split; [reflexivity|]. rewrite Hcount. simpl (0 + _)%Z.
  split; [reflexivity|]. split; [exact Hb|].
  apply (percent_bounds (count_authentic (r0 :: rs)) (List.length rs)). exact Hb.
Qed.

Lemma normalize_chars (text : option string) :
  Py.all (fun c => Ascii.eqb c " " || Py.isword c) (normalize text) = true.
Proof.
  destruct text as [t|]; [|reflexivity]. rewrite normalize_some.
  apply all_join; [reflexivity|].
  eapply Forall_impl; [|apply normalize_words].
  intros w [_ Hw]. eapply all_impl; [|exact Hw].
  intros c Hc. apply andb_true_iff in Hc as [_ Hc].
  unfold settled in Hc. apply andb_true_iff in Hc as [Hword _].
  rewrite Hword. apply orb_true_r.
Qed.

Lemma all_map (p q : ascii -> bool) (f : ascii -> ascii) (s : string) :
  (forall c, p c = true -> q (f c) = true) ->
  Py.all p s = true -> Py.all q (Py.map f s) = true.
Proof.
  intros Hf. induction s as [|c s IH]; simpl; [trivial|].
  rewrite !andb_true_iff. intros [Hc Hs]. split; auto.
Qed.

(** X12. Whatever the author name, the report is written to a file named
    "verification_report_" followed by word characters only (letters,
    digits, underscores) and ".csv": no space, dot, slash or other
    punctuation of the name reaches the file name. *)
Theorem report_path_is_plain
    (name : string) (orcid scopus_id researcher_id : option string)
    (publications : list (option string)) (path : string) (lines : list csv_line) :
  outfile (run_main name orcid scopus_id researcher_id publications) = Some (path, lines) ->
  exists safe_name,
    path = ("verification_report_" ++ safe_name ++ ".csv")%string
    /\ Py.all Py.isword safe_name = true.
Proof.
  unfold main.
  destruct (verify_each _ _ _ _ _ _ _) as [[results count]|e]; [|discriminate].
  destruct (write_report results) as [ls written]. cbn [outfile].
  intros H. injection H as Hpath _. subst path.
  exists (Py.map (fun c => if Ascii.eqb c " " then "_"%char else c)
            (normalize (Some name))).
  split; [reflexivity|].
  eapply all_map; [|apply normalize_chars].
  intros c Hc. cbv beta in Hc.
  destruct (Ascii.eqb c " ") eqn:E; [reflexivity|exact Hc].
Qed.

Lemma verify_raises_on_empty_name (pub : Pub.t) (name : string)
    (orcid scopus_id researcher_id : option string) :
  normalize (Some name) = ""%string ->
  candidates (Pub.title pub) <> [] ->
  verify pub name orcid scopus_id researcher_id = Raise IndexError.
Proof.
  intros Hname Hpool. rewrite verify_unfold.
  destruct (candidates (Pub.title pub)) as [|c cs]; [congruence|].
  now rewrite (select_fails _ _ _ _ _ _ _ c cs selection_init Hname).
Qed.

Lemma verify_all_raises (name : string) (orcid scopus_id researcher_id : option string)
    (pubs : list Pub.t) :
  normalize (Some name) = ""%string ->
  Exists (fun pub => candidates (Pub.title pub) <> []) pubs ->
  forall results count,
    verify_each name orcid scopus_id researcher_id pubs results count = Raise IndexError.
Proof.
  intros Hname. induction pubs as [|pub pubs IH]; intros Hex results count;
    [inversion Hex|].
  simpl. destruct (candidates (Pub.title pub)) as [|c cs] eqn:Epool.
  - inversion Hex as [? ? Hhere|? ? Hlater]; subst; [congruence|].
    rewrite verify_unfold, Epool. simpl. now apply IH.
  - rewrite verify_raises_on_empty_name; [reflexivity|exact Hname|].
    rewrite Epool. discriminate.
Qed.

(** X13. A name that normalizes to the empty string (a name made of
    punctuation only) ends the run with [IndexError] at the first
    publication for which a record is found, before the report file is
    opened: nothing is written, whatever was verified before. *)
Theorem empty_name_leaves_no_report
    (name : string) (orcid scopus_id researcher_id : option string)
    (publications : list (option string)) :
  normalize (Some name) = ""%string ->
  Exists (fun t => Py.truthy t = true /\ candidates (get t "") <> []) publications ->
  run_main name orcid scopus_id researcher_id publications
  = {| outfile := None; outcome := Raise IndexError |}.
Proof.
  intros Hname Hex. unfold main. rewrite pubs_of_titled.
  rewrite (verify_all_raises name orcid scopus_id researcher_id _ Hname); [reflexivity|].
  apply Exists_exists in Hex as (t & Hin & Ht & Hpool).
  apply Exists_exists. exists (Pub.make (get t "")). split; [|exact Hpool].
  apply in_map_iff. exists t. split; [reflexivity|].
  unfold titled. apply filter_In. now split.
Qed.

End MainMore.

(** ** The prompt *)

Section PromptFacts.

Local Open Scope string_scope.

Lemma truthy_nonempty (v : string) : Py.truthy (Some v) = true <-> v <> "".
Proof. destruct v; simpl; split; congruence. Qed.

Lemma prompt_required_some (stdin rest : list string) (v : string) :
  prompt_required stdin = Some (v, rest) ->
  exists skipped line,
    stdin = (skipped ++ line :: rest)%list
    /\ Forall blank skipped
    /\ v = Py.strip line
    /\ v <> "".
Proof.
  induction stdin as [|l stdin IH]; cbn [prompt_required]; [discriminate|].
  destruct (Py.truthy (Some (Py.strip l))) eqn:E.
  - intros H. inversion H; subst. exists [], l. repeat split; [constructor|].
    now apply truthy_nonempty.
  - intros H. destruct (IH H) as (skipped & line & -> & Hsk & Hv & Hne).
    exists (l :: skipped), line. repeat split; try assumption.
    constructor; [|exact Hsk]. unfold blank.
    destruct (Py.strip l); [reflexivity|discriminate].
Qed.

Lemma prompt_optional_some (stdin rest : list string) (o : option string) :
  prompt_optional stdin = Some (o, rest) ->
  exists line,
    stdin = line :: rest
    /\ clean_optional o
    /\ (o = None <-> blank line)
    /\ (forall v, o = Some v -> v = Py.strip line).
Proof.
  destruct stdin as [|l stdin]; cbn [prompt_optional]; [discriminate|].
  destruct (Py.truthy (Some (Py.strip l))) eqn:E;
    intros H; inversion H; subst; exists l; (split; [reflexivity|]).
  - apply truthy_nonempty in E. split; [|split].
    + split; [exact E|apply strip_idem].
    + split; [discriminate|]. intros Hb. unfold blank in Hb. congruence.
    + intros v Hv. now inversion Hv.
  - assert (Hb : Py.strip l = "") by (destruct (Py.strip l); [reflexivity|discriminate]).
    split; [exact I|]. split; [|discriminate].
    split; [now intros _|reflexivity].
Qed.

(** X14. Whatever is typed, the answers [prompt_inputs] returns are
    clean: the name and the Scholar ID are non-empty and trimmed, and
    each optional identifier is either absent or a non-empty trimmed
    string, never the empty string. The name is the first line typed
    that is not blank. *)
Theorem prompt_inputs_are_clean (stdin rest : list string) (a : answers) :
  prompt_inputs stdin = Some (a, rest) ->
  (ans_name a <> "" /\ Py.strip (ans_name a) = ans_name a)
  /\ (ans_scholar_id a <> "" /\ Py.strip (ans_scholar_id a) = ans_scholar_id a)
  /\ clean_optional (ans_orcid a)
  /\ clean_optional (ans_scopus_id a)
  /\ clean_optional (ans_researcher_id a)
  /\ exists skipped line later,
       stdin = (skipped ++ line :: later)%list
       /\ Forall blank skipped
       /\ ans_name a = Py.strip line.
Proof.
  unfold prompt_inputs.
  destruct (prompt_required stdin) as [[name s1]|] eqn:E1; [|discriminate].
  destruct (prompt_required s1) as [[sid s2]|] eqn:E2; [|discriminate].
  destruct (prompt_optional s2) as [[o s3]|] eqn:E3; [|discriminate].
  destruct (prompt_optional s3) as [[sc s4]|] eqn:E4; [|discriminate].
  destruct (prompt_optional s4) as [[rid s5]|] eqn:E5; [|discriminate].
  intros H. inversion H; subst. clear H. simpl.
  apply prompt_required_some in E1 as (sk1 & l1 & -> & Hsk1 & -> & Hne1).
  apply prompt_required_some in E2 as (sk2 & l2 & _ & _ & -> & Hne2).
  apply prompt_optional_some in E3 as (l3 & _ & H3 & _).
  apply prompt_optional_some in E4 as (l4 & _ & H4 & _).
  apply prompt_optional_some in E5 as (l5 & _ & H5 & _).
  split; [split; [exact Hne1|apply strip_idem]|].
  split; [split; [exact Hne2|apply strip_idem]|].
  split; [exact H3|]. split; [exact H4|]. split; [exact H5|].
  now exists sk1, l1, s1.
Qed.

(** X15. [prompt_inputs] returns answers exactly when the input holds a
    non-blank line after blank ones only, then a second non-blank line
    after blank ones only, then three more lines; otherwise the input
    ends while it is still asking and it ends with [EOFError]. Blank
    answers to the two required questions are never accepted. *)
Theorem prompt_inputs_needs_its_lines (stdin : list string) :
  prompt_inputs stdin = None
  <-> ~ exists skipped1 name_line skipped2 id_line l3 l4 l5 rest,
          stdin = (skipped1 ++ name_line :: skipped2 ++ id_line :: l3 :: l4 :: l5 :: rest)%list
          /\ Forall blank skipped1 /\ ~ blank name_line
          /\ Forall blank skipped2 /\ ~ blank id_line.
Proof.
  split.
  - intros Hnone (sk1 & n & sk2 & i & l3 & l4 & l5 & rest & -> & Hsk1 & Hn & Hsk2 & Hi).
    assert (Hreq : forall sk line tail,
               Forall blank sk -> ~ blank line ->
               prompt_required (sk ++ line :: tail)%list = Some (Py.strip line, tail)).
    { intros sk line tail Hsk Hline. induction Hsk as [|l sk Hl _ IH]; simpl.
      - unfold blank in Hline. destruct (Py.strip line); [congruence|reflexivity].
      - unfold blank in Hl. now rewrite Hl. }
    unfold prompt_inputs in Hnone.
    rewrite (Hreq sk1 n _ Hsk1 Hn), (Hreq sk2 i _ Hsk2 Hi) in Hnone.
    simpl in Hnone. discriminate.
  - intros Hno. destruct (prompt_inputs stdin) as [[a rest]|] eqn:E; [|reflexivity].
    exfalso. apply Hno. unfold prompt_inputs in E.
    destruct (prompt_required stdin) as [[name s1]|] eqn:E1; [|discriminate].
    destruct (prompt_required s1) as [[sid s2]|] eqn:E2; [|discriminate].
    destruct s2 as [|l3 [|l4 [|l5 s5]]]; try discriminate.
    apply prompt_required_some in E1 as (sk1 & l1 & -> & Hsk1 & -> & Hne1).
    apply prompt_required_some in E2 as (sk2 & l2 & -> & Hsk2 & -> & Hne2).
    now exists sk1, l1, sk2, l2, l3, l4, l5, s5.
Qed.

End PromptFacts.

(** ** More of the program on concrete inputs *)

Section MoreInstances.

Local Open Scope Q_scope.

Lemma last_name_is_last_word_witness :
  normalize (Some "Jane A. Smith"%string) <> ""%string
  /\ exists last before,
       last_name (Some "Jane A. Smith"%string) = Ok last
       /\ normalize (Some "Jane A. Smith"%string) = (before ++ last)%string.
Proof.
  assert (Hname : normalize (Some "Jane A. Smith"%string) <> ""%string)
    by (vm_compute; discriminate).
  split; [exact Hname|].
  destruct (last_name_is_last_word (Some "Jane A. Smith"%string) Hname)
    as (last & before & Hl & _ & Hn & _).
  exists last, before. split; [exact Hl|exact Hn].
Defined.

Example last_name_ex : last_name (Some "Jane A. Smith"%string) = Ok "smith"%string.
Proof. reflexivity. Qed.

Lemma verify_depends_on_normalized_name_witness :
  normalize (Some "JANE  smith!"%string) = normalize (Some "Jane Smith"%string)
  /\ verify_publication exact_ratio exact_ratio sample_web sample_pub "JANE  smith!"
       None None None
     = verify_publication exact_ratio exact_ratio sample_web sample_pub "Jane Smith"
         None None None.
Proof.
  split; [reflexivity|].
  apply (verify_depends_on_normalized_name exact_ratio exact_ratio sample_web sample_pub
           "JANE  smith!" "Jane Smith" None None None).
  reflexivity.
Defined.


Lemma result_fields_witness :
  exists res,
    verify_publication exact_ratio exact_ratio sample_web sample_pub "Jane Smith"
      None None None = Ok res
    /\ Verification.claimed_title res = Pub.title sample_pub
    /\ (pool sample_web (Pub.title sample_pub) <> [] ->
        In (Verification.matched_source res) ["Crossref"; "SemanticScholar"]%string
        /\ Verification.reason res = "Automated bibliographic verification"%string).
Proof.
  eexists. split; [exact authentic_scenario|].
  destruct (result_fields exact_ratio exact_ratio sample_web
              exact_ratio_range exact_ratio_range sample_pub "Jane Smith" None None None
              _ authentic_scenario) as (Ht & _ & _ & _ & Hsrc).
  split; [exact Ht|exact Hsrc].
Defined.

Example authentic_scenario_with_orcid :
  verify_publication exact_ratio exact_ratio sample_web sample_pub "Jane Smith"
    (Some "0000-0009"%string) None None
  = Ok {| Verification.claimed_title := "Deep Learning for X";
          Verification.matched_title := "Deep learning for X";
          Verification.matched_source := "Crossref";
          Verification.doi := Some "10.1000/x"%string;
          Verification.confidence_score := 95;
          Verification.classification := "AUTHENTIC";
          Verification.verification_strength := "Strong (ORCID + DOI)";
          Verification.reason := "Automated bibliographic verification" |}.
Proof. vm_compute. reflexivity. Qed.

Lemma strength_follows_doi_column_witness :
  exists res,
    verify_publication exact_ratio exact_ratio sample_web sample_pub "Jane Smith"
      (Some "0000-0009"%string) None None = Ok res
    /\ Verification.verification_strength res
       = verification_strength (Some "0000-0009"%string)
           (Py.truthy (Verification.doi res))
    /\ Verification.verification_strength res = "Strong (ORCID + DOI)"%string.
Proof.
  eexists. split; [exact authentic_scenario_with_orcid|].
  destruct (strength_follows_doi_column exact_ratio exact_ratio sample_web
              exact_ratio_range exact_ratio_range sample_pub "Jane Smith"
              (Some "0000-0009"%string) None None _ authentic_scenario_with_orcid)
    as (Hd & Hstrong & _).
  split; [exact Hd|]. apply Hstrong. split; reflexivity.
Defined.

Lemma label_bounds_confidence_witness :
  pool sample_web "Something else" <> []
  /\ exists res,
       verify_publication exact_ratio exact_ratio sample_web (Pub.make "Something else")
         "Jane Smith" None None None = Ok res
       /\ Verification.classification res = "AUTHENTIC"%string
       /\ (85 # 4) <= Verification.confidence_score res.
Proof.
  assert (Hpool : pool sample_web "Something else" <> []) by (vm_compute; discriminate).
  split; [exact Hpool|].
  eexists. split; [exact authentic_with_low_score|]. split; [reflexivity|].
  destruct (label_bounds_confidence exact_ratio exact_ratio sample_web
              exact_ratio_range exact_ratio_range (Pub.make "Something else")
              "Jane Smith" None None None _ authentic_with_low_score Hpool)
    as (Hauth & _).
  apply Hauth. reflexivity.
Defined.

Lemma confidence_ceiling_witness :
  exists res,
    verify_publication exact_ratio exact_ratio sample_web sample_pub "Jane Smith"
      None None None = Ok res
    /\ Verification.confidence_score res <= 95.
Proof.
  eexists. split; [exact authentic_scenario|].
  exact (confidence_ceiling exact_ratio exact_ratio sample_web
           exact_ratio_range exact_ratio_range sample_pub "Jane Smith" None None None
           _ authentic_scenario).
Defined.

Lemma crossref_lookup_all_or_nothing_witness :
  Exists (fun i => Crossref.title i = Some []) flawed_items
  /\ crossref_lookup flawed_web "A" = []
  /\ List.length (crossref_lookup generous_web "A") = 4%nat.
Proof.
  assert (Hbad : Exists (fun i => Crossref.title i = Some []) flawed_items)
    by (right; left; reflexivity).
  split; [exact Hbad|]. split.
  - destruct (crossref_lookup_all_or_nothing flawed_web "A" _ flawed_items
                eq_refl eq_refl eq_refl) as [Hnone _].
    exact (Hnone Hbad).
  - destruct (crossref_lookup_all_or_nothing generous_web "A" _ _
                eq_refl eq_refl eq_refl) as [_ Hall].
    apply Hall. repeat constructor; discriminate.
Defined.

Lemma semantic_lookup_all_or_nothing_witness :
  Exists (fun d => Exists (fun a => Semantic.name a = None)
                     (get (Semantic.authors d) [])) flawed_papers
  /\ semantic_lookup flawed_web "A" = []
  /\ List.length (semantic_lookup generous_web "A") = 4%nat.
Proof.
  assert (Hbad : Exists (fun d => Exists (fun a => Semantic.name a = None)
                                    (get (Semantic.authors d) [])) flawed_papers)
    by (right; left; left; reflexivity).
  split; [exact Hbad|]. split.
  - destruct (semantic_lookup_all_or_nothing flawed_web "A" _ flawed_papers
                eq_refl eq_refl eq_refl) as [Hnone _].
    exact (Hnone Hbad).
  - destruct (semantic_lookup_all_or_nothing generous_web "A" _ _
                eq_refl eq_refl eq_refl) as [_ Hall].
    apply Hall. repeat constructor; discriminate.
Defined.

Lemma report_mirrors_publications_witness :
  exists s path results,
    outcome (main exact_ratio exact_ratio sample_web "Jane Smith" None None None
               [Some "Deep Learning for X"%string; None]) = Ok s
    /\ outfile (main exact_ratio exact_ratio sample_web "Jane Smith" None None None
                  [Some "Deep Learning for X"%string; None])
       = Some (path,
               Header ["claimed_title"; "matched_title"; "matched_source"; "doi";
                       "confidence_score"; "classification"; "verification_strength";
                       "reason"]%string
               :: map Row results)
    /\ map (fun r => Some (Verification.claimed_title r)) results
       = [Some "Deep Learning for X"%string]
    /\ 0 <= percent s <= 100.
Proof.
  assert (Hs : outcome (main exact_ratio exact_ratio sample_web "Jane Smith" None None None
                          [Some "Deep Learning for X"%string; None])
               = Ok {| authentic := 1; total := 1; percent := 100 |})
    by (rewrite main_run; reflexivity).
  destruct (report_mirrors_publications exact_ratio exact_ratio sample_web
              "Jane Smith" None None None
              [Some "Deep Learning for X"%string; None] _ Hs)
    as (path & results & Hfile & Htitles & _ & _ & _ & Hp).
  exists {| authentic := 1; total := 1; percent := 100 |}, path, results.
  split; [exact Hs|]. split; [exact Hfile|].
  split; [exact Htitles|exact Hp].
Defined.

Example offline_run :
  main exact_ratio exact_ratio offline "../J. Smith" None None None []
  = {| outfile := Some ("verification_report_j_smith.csv"%string, []);
       outcome := Raise IndexError |}.
Proof. vm_compute. reflexivity. Qed.

Lemma report_path_is_plain_witness :
  exists lines safe_name,
    outfile (main exact_ratio exact_ratio offline "../J. Smith" None None None [])
    = Some (("verification_report_" ++ safe_name ++ ".csv")%string, lines)
    /\ Py.all Py.isword safe_name = true.
Proof.
  assert (Hfile : outfile (main exact_ratio exact_ratio offline "../J. Smith"
                             None None None [])
                  = Some ("verification_report_j_smith.csv"%string, []))
    by (rewrite offline_run; reflexivity).
  destruct (report_path_is_plain exact_ratio exact_ratio offline "../J. Smith"
              None None None [] _ [] Hfile) as (safe_name & Hpath & Hsafe).
  exists [], safe_name. split; [|exact Hsafe].
  rewrite Hfile. now rewrite Hpath.
Defined.

Example report_path_ex :
  option_map fst
    (outfile (main exact_ratio exact_ratio offline "../J. Smith" None None None []))
  = Some "verification_report_j_smith.csv"%string.
Proof. reflexivity. Qed.

Lemma empty_name_leaves_no_report_witness :
  normalize (Some "..."%string) = ""%string
  /\ Exists (fun t => Py.truthy t = true /\ pool sample_web (get t "") <> [])
       [Some "Deep Learning for X"%string]
  /\ main exact_ratio exact_ratio sample_web "..." None None None
       [Some "Deep Learning for X"%string]
     = {| outfile := None; outcome := Raise IndexError |}.
Proof.
  assert (Hex : Exists (fun t => Py.truthy t = true /\ pool sample_web (get t "") <> [])
                  [Some "Deep Learning for X"%string]).
  { left. split; [reflexivity|]. vm_compute. discriminate. }
  split; [reflexivity|]. split; [exact Hex|].
  exact (empty_name_leaves_no_report exact_ratio exact_ratio sample_web "..."
           None None None [Some "Deep Learning for X"%string] eq_refl Hex).
Defined.

Example prompt_inputs_ex :
  prompt_inputs typed_lines
  = Some ({| ans_name := "Jane Smith";
             ans_scholar_id := "abc123";
             ans_orcid := None;
             ans_scopus_id := Some "57"%string;
             ans_researcher_id := None |}, []).
Proof. vm_compute. reflexivity. Qed.

Lemma prompt_inputs_are_clean_witness :
  exists a rest,
    prompt_inputs typed_lines = Some (a, rest)
    /\ ans_name a <> ""%string
    /\ Py.strip (ans_name a) = ans_name a
    /\ clean_optional (ans_orcid a)
    /\ clean_optional (ans_scopus_id a).
Proof.
  eexists. eexists. split; [exact prompt_inputs_ex|].
  destruct (prompt_inputs_are_clean typed_lines _ _ prompt_inputs_ex)
    as ((Hne & Hstrip) & _ & Ho & Hs & _).
  split; [exact Hne|]. split; [exact Hstrip|]. split; [exact Ho|exact Hs].
Defined.

End MoreInstances.
